(** * Vizio TV controller web app

    A shallow embedding of the page controller [VizioTVController]
    (static/app.js) and of its service worker (static/sw.js), followed by
    the properties of the offline-resilience and session layer.

    Conventions of the embedding.
    - JavaScript values are the values JSON.parse can produce, plus
      [undefined]; numbers are integers of magnitude below 2^53 (the API
      carries percentages and status codes only).  The server's JSON is any
      such value.  The arguments of [setPower], [setVolume], [setMute] and
      [setInput] are primitives, which is what the controls of the page
      pass; [launchApp] is given the names of the apps list and takes any
      value, and so does [sendRemoteKey].
    - An [async] method is cut at its [await]s: the part that runs when the
      method is called keeps the method's name, the parts that run when the
      awaited promise settles are its continuations.  A request in flight is
      an entry of [pending]; the browser settles it by an event.
    - [throw]/[try]/[catch]/[finally] are kept, in a state-and-exception
      monad [M], so that "this path never throws" is a theorem and not a
      choice of types.
    - The document is the one of index.html: every element looked up by id
      exists.  The install prompt, the listeners of the volume slider and
      push notifications are left out. *)

From Stdlib Require Import ZArith String List Bool Lia DecimalString.
From stdpp Require Import base option list gmap strings.

Set Warnings "-register-all".

Open Scope string_scope.
Open Scope list_scope.

(** ** JavaScript values *)

Module JS.

(** The numbers of the embedding: the integers that JavaScript holds
    exactly and prints digit for digit, those of magnitude below 2^53. *)
Definition safe_integer (n : Z) : bool := (Z.abs n <? 2 ^ 53)%Z.

Record Integer : Type := {
  int_value : Z;
  int_safe : safe_integer int_value = true;
}.

(** A literal. *)
Abbreviation integer n := (Build_Integer n eq_refl).

Inductive Value : Type :=
| VUndefined
| VNull
| VBool (b : bool)
| VNum (n : Integer)
| VStr (s : string)
| VArr (elems : list Value)
| VObj (props : list (string * Value)).

(** What a [throw] carries. *)
Inductive Error : Type :=
| Error_ (message : string)      (* new Error(message) *)
| TypeError (message : string)   (* failed fetch, property of null, not a function *)
| SyntaxError (message : string) (* response.json() on a body that is not JSON *).

(** Outcome of evaluating a statement or settling a promise. *)
Inductive Completion (A : Type) : Type :=
| Normal (a : A)
| Abrupt (e : Error).
Arguments Normal {A} a.
Arguments Abrupt {A} e.

(** ToBoolean. *)
Definition truthy (v : Value) : bool :=
  match v with
  | VUndefined | VNull => false
  | VBool b => b
  | VNum n => negb (int_value n =? 0)%Z
  | VStr s => negb (String.eqb s "")
  | VArr _ | VObj _ => true
  end.

(** [a || b] on values. *)
Definition or_else (a b : Value) : Value := if truthy a then a else b.

(** [v !== undefined]. *)
Definition is_defined (v : Value) : bool :=
  match v with VUndefined => false | _ => true end.

Definition string_of_Z (n : Z) : string := NilZero.string_of_int (Z.to_int n).

(** [Object.prototype.hasOwnProperty]. *)
Definition has_own (name : string) (props : list (string * Value)) : bool :=
  existsb (fun kv => String.eqb (fst kv) name) props.

(** What ToString throws on an object that has no usable [toString] and
    no usable [valueOf]. *)
Definition cannot_convert : Error :=
  TypeError "Cannot convert object to primitive value".

(** [Array.prototype.join]: the elements are converted in order, [null]
    and [undefined] giving the empty string; the first conversion that
    throws makes [join] throw. *)
Section Join.
Variable convert : Value -> Completion string.

Definition convert_element (e : Value) : Completion string :=
  match e with
  | VUndefined | VNull => Normal ""
  | _ => convert e
  end.

Fixpoint join_elements (elems : list Value) : Completion (list string) :=
  match elems with
  | [] => Normal []
  | e :: rest =>
      match convert_element e with
      | Normal s =>
          match join_elements rest with
          | Normal parts => Normal (s :: parts)
          | Abrupt error => Abrupt error
          end
      | Abrupt error => Abrupt error
      end
  end.

End Join.

(** ToString, as a template literal applies it.  A primitive always
    converts.  An array converts through [join].  An object converts
    through its [toString] method, then its [valueOf]: a parsed object
    inherits both from [Object.prototype] and gives "[object Object]",
    unless it has an entry named [toString] of its own; that entry is a JSON
    value, which is not callable, [valueOf] (its own or the inherited one)
    gives no primitive either, and the conversion throws a TypeError. *)
Fixpoint toString (v : Value) : Completion string :=
  match v with
  | VUndefined => Normal "undefined"
  | VNull => Normal "null"
  | VBool b => Normal (if b then "true" else "false")
  | VNum n => Normal (string_of_Z (int_value n))
  | VStr s => Normal s
  | VArr elems =>
      match join_elements toString elems with
      | Normal parts => Normal (String.concat "," parts)
      | Abrupt error => Abrupt error
      end
  | VObj props =>
      if has_own "toString" props then Abrupt cannot_convert
      else Normal "[object Object]"
  end.

(** Assigning to [textContent] or to an input's [value]: null (and, for
    [textContent], undefined) gives the empty string, anything else is
    converted with ToString; when the conversion throws nothing is
    assigned. *)
Definition textContent_of (v : Value) : Completion string :=
  match v with
  | VUndefined | VNull => Normal ""
  | _ => toString v
  end.

Definition inputValue_of (v : Value) : Completion string :=
  match v with
  | VNull => Normal ""
  | _ => toString v
  end.

(** The values that are not objects: what a control of the page passes to
    the global functions. *)
Inductive Primitive : Type :=
| PUndefined
| PNull
| PBool (b : bool)
| PNum (n : Integer)
| PStr (s : string).

Definition of_primitive (p : Primitive) : Value :=
  match p with
  | PUndefined => VUndefined
  | PNull => VNull
  | PBool b => VBool b
  | PNum n => VNum n
  | PStr s => VStr s
  end.

(** ToString of a primitive. *)
Definition Primitive_toString (p : Primitive) : string :=
  match p with
  | PUndefined => "undefined"
  | PNull => "null"
  | PBool b => if b then "true" else "false"
  | PNum n => string_of_Z (int_value n)
  | PStr s => s
  end.

Fixpoint lookup_prop (name : string) (props : list (string * Value)) : Value :=
  match props with
  | [] => VUndefined
  | (k, x) :: rest => if String.eqb k name then x else lookup_prop name rest
  end.

(** [v.name], for the names the controller reads ([power], [volume],
    [input], [muted], [apps]): none of them is defined on a primitive or
    on an array, so only objects answer; reading a property of null or
    undefined throws. *)
Definition get (v : Value) (name : string) : Completion Value :=
  match v with
  | VUndefined =>
      Abrupt (TypeError ("Cannot read properties of undefined (reading '" +:+ name +:+ "')"))
  | VNull =>
      Abrupt (TypeError ("Cannot read properties of null (reading '" +:+ name +:+ "')"))
  | VObj props => Normal (lookup_prop name props)
  | _ => Normal VUndefined
  end.

End JS.
Export JS.

(** ** The page controller: [class VizioTVController] *)

Module Controller.

(** *** The network as the page sees it *)

(** One call of [fetch(url, options)]: [options.headers] is constant;
    [body] is the value whose [JSON.stringify] is sent, when the caller
    passed one. *)
Record Request : Type := {
  url : string;
  method : string;
  body : option Value;
}.

Record Response : Type := { status : Z }.

(** [response.ok]. *)
Definition ok (r : Response) : bool := ((200 <=? status r) && (status r <=? 299))%Z.

(** How the promise of [fetch] settles: it rejects when no response arrives
    (network down, timeout, refused), and resolves with any response that
    does arrive, whatever its status. *)
Inductive FetchOutcome : Type :=
| FetchResponse (r : Response)
| FetchRejected (e : Error).

(** How the promise of [response.json()] settles. *)
Inductive JsonOutcome : Type :=
| JsonParsed (v : Value)
| JsonRejected (e : Error).

(** *** The document *)

Record Toast : Type := { toast_type : string; toast_message : string }.

Record AppCard : Type := { card_label : string; card_appName : Value }.

Record Dom : Type := {
  statusText : string;             (* #statusText.textContent *)
  statusDot_connected : bool;      (* #statusDot has class connected *)
  loadingOverlay_hidden : bool;    (* #loadingOverlay has class hidden *)
  toastContainer : list Toast;     (* toasts appended so far, oldest first *)
  powerStatus : string;
  volumeStatus : string;
  inputStatus : string;
  muteStatus : string;
  currentInputDisplay : string;
  volumeSlider_value : string;     (* the string assigned to #volumeSlider.value *)
  volumeValue : string;            (* #volumeValue.textContent *)
  appsGrid : list AppCard;
  apiUrlInput_value : string;
}.

(** *** The controller object and the event loop around it *)

(** The method awaiting a [makeApiRequest], with its arguments: what runs
    when the request settles. *)
Inductive Caller : Type :=
| K_testConnection
| K_refreshStatus
| K_loadApps
| K_setPower (power : Value)
| K_setVolume (volume : Value)
| K_setMute (muted : Value)
| K_setInput (inputName : Value)
| K_launchApp (appName : Value)
| K_sendRemoteKey (key : Value).

(** Where a [makeApiRequest] in flight is suspended. *)
Inductive Stage : Type :=
| AwaitFetch   (* at [await fetch(url, options)] *)
| AwaitJson    (* at [await response.json()] *).

Record Pending : Type := {
  p_request : Request;
  p_stage : Stage;
  p_caller : Caller;
}.

Record World : Type := {
  apiUrl : string;
  isConnected : bool;
  tvInfo : Value;
  dom : Dom;
  console : list (string * Error);  (* console.error calls, oldest first *)
  fetched : list Request;           (* every call of fetch, oldest first *)
  pending : gmap nat Pending;       (* requests in flight, by position in [fetched] *)
}.

Definition with_isConnected (b : bool) (w : World) : World :=
  {| apiUrl := apiUrl w; isConnected := b; tvInfo := tvInfo w; dom := dom w;
     console := console w; fetched := fetched w; pending := pending w |}.

Definition with_tvInfo (v : Value) (w : World) : World :=
  {| apiUrl := apiUrl w; isConnected := isConnected w; tvInfo := v; dom := dom w;
     console := console w; fetched := fetched w; pending := pending w |}.

Definition with_dom (f : Dom -> Dom) (w : World) : World :=
  {| apiUrl := apiUrl w; isConnected := isConnected w; tvInfo := tvInfo w;
     dom := f (dom w);
     console := console w; fetched := fetched w; pending := pending w |}.

Definition with_console (l : list (string * Error)) (w : World) : World :=
  {| apiUrl := apiUrl w; isConnected := isConnected w; tvInfo := tvInfo w; dom := dom w;
     console := l; fetched := fetched w; pending := pending w |}.

Definition with_net (l : list Request) (p : gmap nat Pending) (w : World) : World :=
  {| apiUrl := apiUrl w; isConnected := isConnected w; tvInfo := tvInfo w; dom := dom w;
     console := console w; fetched := l; pending := p |}.

Definition dom_status (text : string) (connected : bool) (d : Dom) : Dom :=
  {| statusText := text;
     statusDot_connected := connected;
     loadingOverlay_hidden := loadingOverlay_hidden d;
     toastContainer := toastContainer d;
     powerStatus := powerStatus d;
     volumeStatus := volumeStatus d;
     inputStatus := inputStatus d;
     muteStatus := muteStatus d;
     currentInputDisplay := currentInputDisplay d;
     volumeSlider_value := volumeSlider_value d;
     volumeValue := volumeValue d;
     appsGrid := appsGrid d;
     apiUrlInput_value := apiUrlInput_value d |}.

Definition dom_overlay (hidden : bool) (d : Dom) : Dom :=
  {| statusText := statusText d;
     statusDot_connected := statusDot_connected d;
     loadingOverlay_hidden := hidden;
     toastContainer := toastContainer d;
     powerStatus := powerStatus d;
     volumeStatus := volumeStatus d;
     inputStatus := inputStatus d;
     muteStatus := muteStatus d;
     currentInputDisplay := currentInputDisplay d;
     volumeSlider_value := volumeSlider_value d;
     volumeValue := volumeValue d;
     appsGrid := appsGrid d;
     apiUrlInput_value := apiUrlInput_value d |}.

Definition dom_toast (t : Toast) (d : Dom) : Dom :=
  {| statusText := statusText d;
     statusDot_connected := statusDot_connected d;
     loadingOverlay_hidden := loadingOverlay_hidden d;
     toastContainer := toastContainer d ++ [t];
     powerStatus := powerStatus d;
     volumeStatus := volumeStatus d;
     inputStatus := inputStatus d;
     muteStatus := muteStatus d;
     currentInputDisplay := currentInputDisplay d;
     volumeSlider_value := volumeSlider_value d;
     volumeValue := volumeValue d;
     appsGrid := appsGrid d;
     apiUrlInput_value := apiUrlInput_value d |}.

Definition dom_powerStatus (s : string) (d : Dom) : Dom :=
  {| statusText := statusText d;
     statusDot_connected := statusDot_connected d;
     loadingOverlay_hidden := loadingOverlay_hidden d;
     toastContainer := toastContainer d;
     powerStatus := s;
     volumeStatus := volumeStatus d;
     inputStatus := inputStatus d;
     muteStatus := muteStatus d;
     currentInputDisplay := currentInputDisplay d;
     volumeSlider_value := volumeSlider_value d;
     volumeValue := volumeValue d;
     appsGrid := appsGrid d;
     apiUrlInput_value := apiUrlInput_value d |}.

Definition dom_volumeStatus (s : string) (d : Dom) : Dom :=
  {| statusText := statusText d;
     statusDot_connected := statusDot_connected d;
     loadingOverlay_hidden := loadingOverlay_hidden d;
     toastContainer := toastContainer d;
     powerStatus := powerStatus d;
     volumeStatus := s;
     inputStatus := inputStatus d;
     muteStatus := muteStatus d;
     currentInputDisplay := currentInputDisplay d;
     volumeSlider_value := volumeSlider_value d;
     volumeValue := volumeValue d;
     appsGrid := appsGrid d;
     apiUrlInput_value := apiUrlInput_value d |}.

Definition dom_inputStatus (s : string) (d : Dom) : Dom :=
  {| statusText := statusText d;
     statusDot_connected := statusDot_connected d;
     loadingOverlay_hidden := loadingOverlay_hidden d;
     toastContainer := toastContainer d;
     powerStatus := powerStatus d;
     volumeStatus := volumeStatus d;
     inputStatus := s;
     muteStatus := muteStatus d;
     currentInputDisplay := currentInputDisplay d;
     volumeSlider_value := volumeSlider_value d;
     volumeValue := volumeValue d;
     appsGrid := appsGrid d;
     apiUrlInput_value := apiUrlInput_value d |}.

Definition dom_muteStatus (s : string) (d : Dom) : Dom :=
  {| statusText := statusText d;
     statusDot_connected := statusDot_connected d;
     loadingOverlay_hidden := loadingOverlay_hidden d;
     toastContainer := toastContainer d;
     powerStatus := powerStatus d;
     volumeStatus := volumeStatus d;
     inputStatus := inputStatus d;
     muteStatus := s;
     currentInputDisplay := currentInputDisplay d;
     volumeSlider_value := volumeSlider_value d;
     volumeValue := volumeValue d;
     appsGrid := appsGrid d;
     apiUrlInput_value := apiUrlInput_value d |}.

Definition dom_currentInputDisplay (s : string) (d : Dom) : Dom :=
  {| statusText := statusText d;
     statusDot_connected := statusDot_connected d;
     loadingOverlay_hidden := loadingOverlay_hidden d;
     toastContainer := toastContainer d;
     powerStatus := powerStatus d;
     volumeStatus := volumeStatus d;
     inputStatus := inputStatus d;
     muteStatus := muteStatus d;
     currentInputDisplay := s;
     volumeSlider_value := volumeSlider_value d;
     volumeValue := volumeValue d;
     appsGrid := appsGrid d;
     apiUrlInput_value := apiUrlInput_value d |}.

Definition dom_volumeSlider_value (s : string) (d : Dom) : Dom :=
  {| statusText := statusText d;
     statusDot_connected := statusDot_connected d;
     loadingOverlay_hidden := loadingOverlay_hidden d;
     toastContainer := toastContainer d;
     powerStatus := powerStatus d;
     volumeStatus := volumeStatus d;
     inputStatus := inputStatus d;
     muteStatus := muteStatus d;
     currentInputDisplay := currentInputDisplay d;
     volumeSlider_value := s;
     volumeValue := volumeValue d;
     appsGrid := appsGrid d;
     apiUrlInput_value := apiUrlInput_value d |}.

Definition dom_volumeValue (s : string) (d : Dom) : Dom :=
  {| statusText := statusText d;
     statusDot_connected := statusDot_connected d;
     loadingOverlay_hidden := loadingOverlay_hidden d;
     toastContainer := toastContainer d;
     powerStatus := powerStatus d;
     volumeStatus := volumeStatus d;
     inputStatus := inputStatus d;
     muteStatus := muteStatus d;
     currentInputDisplay := currentInputDisplay d;
     volumeSlider_value := volumeSlider_value d;
     volumeValue := s;
     appsGrid := appsGrid d;
     apiUrlInput_value := apiUrlInput_value d |}.

Definition dom_appsGrid (cards : list AppCard) (d : Dom) : Dom :=
  {| statusText := statusText d;
     statusDot_connected := statusDot_connected d;
     loadingOverlay_hidden := loadingOverlay_hidden d;
     toastContainer := toastContainer d;
     powerStatus := powerStatus d;
     volumeStatus := volumeStatus d;
     inputStatus := inputStatus d;
     muteStatus := muteStatus d;
     currentInputDisplay := currentInputDisplay d;
     volumeSlider_value := volumeSlider_value d;
     volumeValue := volumeValue d;
     appsGrid := cards;
     apiUrlInput_value := apiUrlInput_value d |}.

Definition dom_apiUrlInput_value (s : string) (d : Dom) : Dom :=
  {| statusText := statusText d;
     statusDot_connected := statusDot_connected d;
     loadingOverlay_hidden := loadingOverlay_hidden d;
     toastContainer := toastContainer d;
     powerStatus := powerStatus d;
     volumeStatus := volumeStatus d;
     inputStatus := inputStatus d;
     muteStatus := muteStatus d;
     currentInputDisplay := currentInputDisplay d;
     volumeSlider_value := volumeSlider_value d;
     volumeValue := volumeValue d;
     appsGrid := appsGrid d;
     apiUrlInput_value := s |}.

(** *** Statements: state and exceptions *)

Definition M (A : Type) : Type := World -> Completion A * World.

Definition ret {A} (a : A) : M A := fun w => (Normal a, w).

Definition bind {A B} (m : M A) (k : A -> M B) : M B :=
  fun w => match m w with
           | (Normal a, w') => k a w'
           | (Abrupt e, w') => (Abrupt e, w')
           end.

Notation "x <- m ;; k" := (bind m (fun x => k))
  (at level 100, m at level 99, k at level 200, right associativity).
Notation "m ;; k" := (bind m (fun _ => k))
  (at level 100, k at level 200, right associativity).

Definition throw {A} (e : Error) : M A := fun w => (Abrupt e, w).

(** [await p] when [p] has settled as [c], and the use of a completed
    expression: a rejection is thrown at the [await]. *)
Definition await {A} (c : Completion A) : M A := fun w => (c, w).

Definition modify (f : World -> World) : M unit := fun w => (Normal tt, f w).

Definition read {A} (f : World -> A) : M A := fun w => (Normal (f w), w).

(** [try { body } catch (error) { handler }]. *)
Definition try_catch {A} (body : M A) (handler : Error -> M A) : M A :=
  fun w => match body w with
           | (Normal a, w') => (Normal a, w')
           | (Abrupt e, w') => handler e w'
           end.

(** [try { body } finally { fin }]: [fin] runs either way, and the
    completion of [body] stands unless [fin] throws. *)
Definition try_finally {A} (body : M A) (fin : M unit) : M A :=
  fun w => match body w with
           | (c, w') => match fin w' with
                        | (Normal _, w'') => (c, w'')
                        | (Abrupt e, w'') => (Abrupt e, w'')
                        end
           end.

(** Calling an [async] method without awaiting it: its body runs up to its
    first suspension; an exception in it rejects the promise it returns,
    which nobody observes. *)
Definition fire_and_forget (m : M unit) : M unit :=
  fun w => (Normal tt, snd (m w)).


Ltac run_monad :=
  unfold bind, read, modify, ret, throw, await, try_catch, try_finally, fire_and_forget.

(** *** UI helpers *)

(** [overlay.classList.toggle('hidden', !show)]. *)
Definition showLoading (show : bool) : M unit :=
  modify (with_dom (dom_overlay (negb show))).

(** A toast is appended to the container; [toastContainer] keeps every
    toast shown (their removal three seconds later is not tracked). *)
Definition showToast (message type : string) : M unit :=
  modify (with_dom (dom_toast {| toast_type := type; toast_message := message |})).

Definition updateConnectionStatus (text : string) (connected : bool) : M unit :=
  modify (with_dom (dom_status text connected)).

Definition console_error (label : string) (error : Error) : M unit :=
  modify (fun w => with_console (console w ++ [(label, error)]) w).

(** *** API communication: [makeApiRequest] *)

(** Up to [await fetch(url, options)]: the request is built and handed to
    [fetch], which returns a promise (it does not throw); the method is then
    suspended, [k] being the caller that awaits it.  [data] is [null] when
    the caller passes none. *)
Definition makeApiRequest (endpoint : string) (method : string) (data : Value)
    (k : Caller) : M unit :=
  fun w =>
    let url := apiUrl w +:+ endpoint in
    let options :=
      {| url := url; method := method;
         body := if truthy data then Some data else None |} in
    (Normal tt,
     with_net (fetched w ++ [options])
       (<[length (fetched w) :=
            {| p_request := options; p_stage := AwaitFetch; p_caller := k |}]> (pending w))
       w).

(** The [catch] block of [makeApiRequest]. *)
Definition makeApiRequest_catch (error : Error) : M Value :=
  console_error "API request failed:" error ;;
  showToast "Connection failed" "error" ;;
  ret VNull.

Definition await_fetch (o : FetchOutcome) : M Response :=
  match o with
  | FetchResponse r => ret r
  | FetchRejected e => throw e
  end.

Definition await_json (j : JsonOutcome) : M Value :=
  match j with
  | JsonParsed v => ret v
  | JsonRejected e => throw e
  end.

(** From the settling of [fetch] to [await response.json()], inside the
    [try]: [None] means suspended on [response.json()], [Some v] that the
    method returned [v]. *)
Definition makeApiRequest_fetched (o : FetchOutcome) : M (option Value) :=
  try_catch
    (response <- await_fetch o ;;
     if negb (ok response)
     then throw (Error_ ("HTTP error! status: " +:+ string_of_Z (status response)))
     else ret None)
    (fun error => v <- makeApiRequest_catch error ;; ret (Some v)).

(** From the settling of [response.json()] to the [return], inside the
    [try]. *)
Definition makeApiRequest_parsed (j : JsonOutcome) : M Value :=
  try_catch (await_json j) makeApiRequest_catch.

(** *** Status *)

(** Each assignment converts its right-hand side to a string before it
    writes: when a field of the snapshot does not convert, the method throws
    there, with the lines above it written. *)
Definition updateStatusDisplay (tvInfo : Value) : M unit :=
  power <- await (get tvInfo "power") ;;
  text <- await (textContent_of (or_else power (VStr "Unknown"))) ;;
  modify (with_dom (dom_powerStatus text)) ;;
  volume <- await (get tvInfo "volume") ;;
  text <- await (toString (or_else volume (VNum (integer 0)))) ;;
  modify (with_dom (dom_volumeStatus (text +:+ "%"))) ;;
  input <- await (get tvInfo "input") ;;
  text <- await (textContent_of (or_else input (VStr "Unknown"))) ;;
  modify (with_dom (dom_inputStatus text)) ;;
  muted <- await (get tvInfo "muted") ;;
  modify (with_dom (dom_muteStatus (if truthy muted then "Yes" else "No"))) ;;
  input <- await (get tvInfo "input") ;;
  text <- await (textContent_of (or_else input (VStr "Unknown"))) ;;
  modify (with_dom (dom_currentInputDisplay text)) ;;
  volume <- await (get tvInfo "volume") ;;
  if is_defined volume then
    value <- await (inputValue_of volume) ;;
    modify (with_dom (dom_volumeSlider_value value)) ;;
    text <- await (toString volume) ;;
    modify (with_dom (dom_volumeValue (text +:+ "%")))
  else ret tt.

(** [refreshStatus], up to its [await]. *)
Definition refreshStatus : M unit :=
  connected <- read isConnected ;;
  if negb connected then ret tt
  else makeApiRequest "/tv/info" "GET" VNull K_refreshStatus.

(** [refreshStatus], from its [await] on. *)
Definition refreshStatus_resumed (settled : Completion Value) : M unit :=
  try_catch
    (tvInfo <- await settled ;;
     if truthy tvInfo then
       modify (with_tvInfo tvInfo) ;;
       updateStatusDisplay tvInfo
     else ret tt)
    (fun error => console_error "Failed to refresh status:" error).

(** *** Apps *)

(** [array.forEach(f)]: [f] is called on the elements in order; when a
    call throws, [forEach] throws and the elements after it are not
    visited. *)
Fixpoint forEach {A} (f : A -> M unit) (l : list A) : M unit :=
  match l with
  | [] => ret tt
  | x :: rest => f x ;; forEach f rest
  end.

(** The body of the loop of [loadApps]: the card is appended to the grid
    last, after its label has been assigned. *)
Definition append_card (appName : Value) : M unit :=
  label <- await (textContent_of appName) ;;
  modify (with_dom (fun d =>
    dom_appsGrid (appsGrid d ++ [{| card_label := label; card_appName := appName |}]) d)).

(** [loadApps], up to its [await]. *)
Definition loadApps : M unit :=
  makeApiRequest "/tv/apps" "GET" VNull K_loadApps.

(** [loadApps], from its [await] on: there is no [try] here.  In
    [response && response.apps] the property is read only when [response]
    is truthy.
    [response.apps.forEach] is a function only on an array. *)
Definition loadApps_resumed (settled : Completion Value) : M unit :=
  response <- await settled ;;
  apps <- (if truthy response then await (get response "apps") else ret response) ;;
  if truthy apps then
    modify (with_dom (dom_appsGrid [])) ;;
    match apps with
    | VArr names => forEach append_card names
    | _ => throw (TypeError "response.apps.forEach is not a function")
    end
  else ret tt.

(** *** Connection test *)

(** [testConnection], up to its [await]. *)
Definition testConnection : M unit :=
  showLoading true ;;
  updateConnectionStatus "Connecting..." false ;;
  makeApiRequest "/health" "GET" VNull K_testConnection.

(** [testConnection], from its [await] on. *)
Definition testConnection_resumed (settled : Completion Value) : M unit :=
  try_finally
    (try_catch
       (response <- await settled ;;
        if truthy response then
          modify (with_isConnected true) ;;
          updateConnectionStatus "Connected" true ;;
          showToast "Connected to TV" "success" ;;
          fire_and_forget refreshStatus ;;
          fire_and_forget loadApps
        else
          modify (with_isConnected false) ;;
          updateConnectionStatus "Disconnected" false ;;
          showToast "Failed to connect" "error")
       (fun error =>
          modify (with_isConnected false) ;;
          updateConnectionStatus "Disconnected" false ;;
          showToast "Connection failed" "error"))
    (showLoading false).


(** *** Commands

    Each command is guarded by [if (!this.isConnected)], sends one request,
    and goes on when the request has settled. *)

Definition not_connected : M unit := showToast "Not connected to TV" "error".

Definition setPower (power : Value) : M unit :=
  connected <- read isConnected ;;
  if negb connected then not_connected
  else
    showLoading true ;;
    makeApiRequest "/tv/power" "POST" (VObj [("power", power)]) (K_setPower power).

Definition setPower_resumed (power : Value) (settled : Completion Value) : M unit :=
  try_finally
    (try_catch
       (response <- await settled ;;
        if truthy response then
          text <- await (toString power) ;;
          showToast ("TV turned " +:+ text) "success" ;;
          fire_and_forget refreshStatus
        else ret tt)
       (fun error => showToast "Failed to control power" "error"))
    (showLoading false).

Definition setVolume (volume : Value) : M unit :=
  connected <- read isConnected ;;
  if negb connected then not_connected
  else makeApiRequest "/tv/volume" "POST" (VObj [("volume", volume)]) (K_setVolume volume).

Definition setVolume_resumed (volume : Value) (settled : Completion Value) : M unit :=
  try_catch
    (response <- await settled ;;
     if truthy response then
       text <- await (toString volume) ;;
       showToast ("Volume set to " +:+ text +:+ "%") "success" ;;
       fire_and_forget refreshStatus
     else ret tt)
    (fun error => showToast "Failed to set volume" "error").

(** The endpoint is built inside the [try]: if [muted] does not convert,
    nothing is sent and the [catch] runs at once. *)
Definition setMute (muted : Value) : M unit :=
  connected <- read isConnected ;;
  if negb connected then not_connected
  else
    try_catch
      (text <- await (toString muted) ;;
       makeApiRequest ("/tv/mute?muted=" +:+ text) "POST" VNull (K_setMute muted))
      (fun error => showToast "Failed to control mute" "error").

Definition setMute_resumed (muted : Value) (settled : Completion Value) : M unit :=
  try_catch
    (response <- await settled ;;
     if truthy response then
       showToast (if truthy muted then "TV muted" else "TV unmuted") "success" ;;
       fire_and_forget refreshStatus
     else ret tt)
    (fun error => showToast "Failed to control mute" "error").

Definition setInput (inputName : Value) : M unit :=
  connected <- read isConnected ;;
  if negb connected then not_connected
  else
    showLoading true ;;
    makeApiRequest "/tv/input" "POST" (VObj [("input_name", inputName)]) (K_setInput inputName).

Definition setInput_resumed (inputName : Value) (settled : Completion Value) : M unit :=
  try_finally
    (try_catch
       (response <- await settled ;;
        if truthy response then
          text <- await (toString inputName) ;;
          showToast ("Switched to " +:+ text) "success" ;;
          fire_and_forget refreshStatus
        else ret tt)
       (fun error => showToast "Failed to switch input" "error"))
    (showLoading false).

Definition launchApp (appName : Value) : M unit :=
  connected <- read isConnected ;;
  if negb connected then not_connected
  else
    showLoading true ;;
    makeApiRequest "/tv/app" "POST" (VObj [("app_name", appName)]) (K_launchApp appName).

Definition launchApp_resumed (appName : Value) (settled : Completion Value) : M unit :=
  try_finally
    (try_catch
       (response <- await settled ;;
        if truthy response then
          text <- await (toString appName) ;;
          showToast ("Launching " +:+ text) "success"
        else ret tt)
       (fun error =>
          text <- await (toString appName) ;;
          showToast ("Failed to launch " +:+ text) "error"))
    (showLoading false).

Definition sendRemoteKey (key : Value) : M unit :=
  connected <- read isConnected ;;
  if negb connected then not_connected
  else makeApiRequest "/tv/remote" "POST" (VObj [("key", key)]) (K_sendRemoteKey key).

Definition sendRemoteKey_resumed (key : Value) (settled : Completion Value) : M unit :=
  try_catch
    (response <- await settled ;;
     if truthy response then
       text <- await (toString key) ;;
       showToast ("Key '" +:+ text +:+ "' sent") "success"
     else ret tt)
    (fun error => showToast "Failed to send remote key" "error").

Definition refreshAllData : M unit :=
  fire_and_forget refreshStatus ;;
  showToast "Data refreshed" "success".

(** The global functions the page calls, one per intent kind, with the
    argument they are given: a primitive from the controls of the page, the
    name of a card of the apps grid for [launchApp]. *)
Inductive Intent : Type :=
| Power (power : Primitive)
| Volume (volume : Primitive)
| Mute (muted : Primitive)
| Input (inputName : Primitive)
| AppLaunch (appName : Value)
| RemoteKey (key : Value).

Definition dispatch (i : Intent) : M unit :=
  match i with
  | Power power => setPower (of_primitive power)
  | Volume volume => setVolume (of_primitive volume)
  | Mute muted => setMute (of_primitive muted)
  | Input inputName => setInput (of_primitive inputName)
  | AppLaunch appName => launchApp appName
  | RemoteKey key => sendRemoteKey key
  end.

(** *** Window and document listeners *)

Definition on_online : M unit :=
  showToast "Back online" "success".

Definition on_offline : M unit :=
  showToast "No internet connection" "error" ;;
  updateConnectionStatus "Offline" false.

Definition on_visibilitychange (hidden : bool) : M unit :=
  connected <- read isConnected ;;
  if negb hidden && connected then fire_and_forget refreshStatus else ret tt.

(** *** The event loop *)

(** The continuation of the caller of a [makeApiRequest] that has settled. *)
Definition resume (k : Caller) (settled : Completion Value) : M unit :=
  match k with
  | K_testConnection => testConnection_resumed settled
  | K_refreshStatus => refreshStatus_resumed settled
  | K_loadApps => loadApps_resumed settled
  | K_setPower power => setPower_resumed power settled
  | K_setVolume volume => setVolume_resumed volume settled
  | K_setMute muted => setMute_resumed muted settled
  | K_setInput inputName => setInput_resumed inputName settled
  | K_launchApp appName => launchApp_resumed appName settled
  | K_sendRemoteKey key => sendRemoteKey_resumed key settled
  end.

Definition drop_pending (id : nat) (w : World) : World :=
  with_net (fetched w) (delete id (pending w)) w.

Definition park_pending (id : nat) (p : Pending) (w : World) : World :=
  with_net (fetched w) (<[id := p]> (pending w)) w.

(** The promise of [fetch] for request [id] settles: [makeApiRequest] runs
    on; when it returns (or throws), its caller runs on in turn. *)
Definition fetch_settled (id : nat) (o : FetchOutcome) (w : World) : World :=
  match pending w !! id with
  | Some p =>
      match p_stage p with
      | AwaitFetch =>
          match makeApiRequest_fetched o (drop_pending id w) with
          | (Normal None, w') =>
              park_pending id {| p_request := p_request p; p_stage := AwaitJson;
                                 p_caller := p_caller p |} w'
          | (Normal (Some v), w') => snd (resume (p_caller p) (Normal v) w')
          | (Abrupt e, w') => snd (resume (p_caller p) (Abrupt e) w')
          end
      | AwaitJson => w
      end
  | None => w
  end.

(** The promise of [response.json()] for request [id] settles. *)
Definition json_settled (id : nat) (j : JsonOutcome) (w : World) : World :=
  match pending w !! id with
  | Some p =>
      match p_stage p with
      | AwaitJson =>
          match makeApiRequest_parsed j (drop_pending id w) with
          | (settled, w') => snd (resume (p_caller p) settled w')
          end
      | AwaitFetch => w
      end
  | None => w
  end.

Inductive Event : Type :=
| EvIntent (i : Intent)
| EvRefreshStatus
| EvTestConnection
| EvRefreshAllData
| EvOnline
| EvOffline
| EvVisibilityChange (hidden : bool)
| EvFetchSettled (id : nat) (o : FetchOutcome)
| EvJsonSettled (id : nat) (j : JsonOutcome).

(** One turn of the event loop.  A listener that throws, or an [async]
    method whose promise rejects, leaves the state it reached. *)
Definition step (w : World) (ev : Event) : World :=
  match ev with
  | EvIntent i => snd (dispatch i w)
  | EvRefreshStatus => snd (refreshStatus w)
  | EvTestConnection => snd (testConnection w)
  | EvRefreshAllData => snd (refreshAllData w)
  | EvOnline => snd (on_online w)
  | EvOffline => snd (on_offline w)
  | EvVisibilityChange hidden => snd (on_visibilitychange hidden w)
  | EvFetchSettled id o => fetch_settled id o w
  | EvJsonSettled id j => json_settled id j w
  end.

Definition run (w : World) (evs : list Event) : World := fold_left step evs w.

(** *** Construction *)

(** [localStorage.getItem('vizioApiUrl') || '']. *)
Definition stored_apiUrl (item : option string) : string :=
  match item with
  | Some s => if String.eqb s "" then "" else s
  | None => ""
  end.

Definition loadSettings : M unit :=
  u <- read apiUrl ;;
  modify (with_dom (dom_apiUrlInput_value u)).

(** [init]: the tab and slider listeners and the service-worker
    registration change nothing here. *)
Definition init : M unit :=
  loadSettings ;;
  fire_and_forget testConnection.

(** [new VizioTVController()] on a document [d], [item] being the stored
    override of the API origin. *)
Definition constructor (item : option string) (d : Dom) : World :=
  snd (init {| apiUrl := stored_apiUrl item; isConnected := false; tvInfo := VNull;
               dom := d; console := []; fetched := []; pending := ∅ |}).

(** *** Vocabulary of the properties *)

(** The request each intent sends, and the continuation that awaits it. *)
Definition request_of (w : World) (i : Intent) : Request :=
  match i with
  | Power power =>
      {| url := apiUrl w +:+ "/tv/power"; method := "POST";
         body := Some (VObj [("power", of_primitive power)]) |}
  | Volume volume =>
      {| url := apiUrl w +:+ "/tv/volume"; method := "POST";
         body := Some (VObj [("volume", of_primitive volume)]) |}
  | Mute muted =>
      {| url := apiUrl w +:+ "/tv/mute?muted=" +:+ Primitive_toString muted;
         method := "POST"; body := None |}
  | Input inputName =>
      {| url := apiUrl w +:+ "/tv/input"; method := "POST";
         body := Some (VObj [("input_name", of_primitive inputName)]) |}
  | AppLaunch appName =>
      {| url := apiUrl w +:+ "/tv/app"; method := "POST";
         body := Some (VObj [("app_name", appName)]) |}
  | RemoteKey key =>
      {| url := apiUrl w +:+ "/tv/remote"; method := "POST";
         body := Some (VObj [("key", key)]) |}
  end.

Definition caller_of (i : Intent) : Caller :=
  match i with
  | Power power => K_setPower (of_primitive power)
  | Volume volume => K_setVolume (of_primitive volume)
  | Mute muted => K_setMute (of_primitive muted)
  | Input inputName => K_setInput (of_primitive inputName)
  | AppLaunch appName => K_launchApp appName
  | RemoteKey key => K_sendRemoteKey key
  end.

Definition get_request (w : World) (endpoint : string) : Request :=
  {| url := apiUrl w +:+ endpoint; method := "GET"; body := None |}.

Definition in_flight (r : Request) (k : Caller) : Pending :=
  {| p_request := r; p_stage := AwaitFetch; p_caller := k |}.

Definition reading_body (r : Request) (k : Caller) : Pending :=
  {| p_request := r; p_stage := AwaitJson; p_caller := k |}.

(** A failure at the transport level: no response, or a status outside
    200-299. *)
Definition transport_failure (o : FetchOutcome) : bool :=
  match o with
  | FetchRejected _ => true
  | FetchResponse r => negb (ok r)
  end.

(** What [makeApiRequest] throws, and catches, on such a failure. *)
Definition failure_error (o : FetchOutcome) : Error :=
  match o with
  | FetchRejected e => e
  | FetchResponse r => Error_ ("HTTP error! status: " +:+ string_of_Z (status r))
  end.

Definition toast_error (message : string) : Toast :=
  {| toast_type := "error"; toast_message := message |}.

Definition toast_success (message : string) : Toast :=
  {| toast_type := "success"; toast_message := message |}.

(** *** A concrete session, for the examples *)

Definition page : Dom :=
  {| statusText := "Connecting..."; statusDot_connected := false;
     loadingOverlay_hidden := true; toastContainer := [];
     powerStatus := "Unknown"; volumeStatus := "0%"; inputStatus := "Unknown";
     muteStatus := "No"; currentInputDisplay := "Unknown";
     volumeSlider_value := "50"; volumeValue := "50%";
     appsGrid := []; apiUrlInput_value := "" |}.

Definition http_200 : FetchOutcome := FetchResponse {| status := 200 |}.

Definition http_500 : FetchOutcome := FetchResponse {| status := 500 |}.

Definition timed_out : FetchOutcome := FetchRejected (TypeError "Failed to fetch").

Definition healthy : JsonOutcome := JsonParsed (VObj [("status", VStr "healthy")]).

(** A status snapshot as [/tv/info] returns it. *)
Definition status_45 : JsonOutcome :=
  JsonParsed (VObj [("power", VStr "On"); ("volume", VNum (integer 45));
                    ("input", VStr "HDMI-1"); ("muted", VBool false)]).

(** Fresh load on the page's own origin. *)
Definition started : World := constructor None page.

(** ... the health probe answered 200 with a JSON object. *)
Definition connected : World :=
  run started [EvFetchSettled 0 http_200; EvJsonSettled 0 healthy].

(** ... then the power button was pressed and the request timed out. *)
Definition power_timed_out : World :=
  run connected [EvIntent (Power (PStr "on")); EvFetchSettled 3 timed_out].

(** ... or the status poll issued on connection timed out. *)
Definition poll_timed_out : World :=
  run connected [EvFetchSettled 1 timed_out].

(** ... or the network went away. *)
Definition gone_offline : World := step connected EvOffline.

(** ... or the connection is being tested again. *)
Definition retesting : World := step connected EvTestConnection.

(** *** Frame conditions

    [keeps R m]: whatever its outcome, statement [m] takes every state to a
    state related to it by [R]. *)

Definition keeps {A} (R : World -> World -> Prop) (m : M A) : Prop :=
  forall w, R w (snd (m w)).

(** What a relation must allow for the methods to keep it: writing the
    document apart from the status label and dot, setting the label to
    something other than "Connected" with the dot off, logging to the
    console, sending a request, and moving a request in flight to its next
    stage or out of the table. *)
Record Frame (R : World -> World -> Prop) : Prop := {
  frame_refl : forall w, R w w;
  frame_trans : forall w1 w2 w3, R w1 w2 -> R w2 w3 -> R w1 w3;
  frame_dom : forall (f : Dom -> Dom) w,
    (forall d, statusText (f d) = statusText d
               /\ statusDot_connected (f d) = statusDot_connected d) ->
    R w (with_dom f w);
  frame_label : forall text w,
    text <> "Connected" -> R w (with_dom (dom_status text false) w);
  frame_console : forall l w, R w (with_console l w);
  frame_request : forall endpoint method data k,
    keeps R (makeApiRequest endpoint method data k);
  frame_drop : forall id w, R w (drop_pending id w);
  frame_park : forall id p w,
    pending w !! id = Some p ->
    R w (park_pending id (reading_body (p_request p) (p_caller p)) (drop_pending id w));
}.

(** The event settles a request awaited by a caller of the given kind. *)
Definition settles_for (kind : Caller -> bool) (w : World) (ev : Event) : bool :=
  match ev with
  | EvFetchSettled id _ | EvJsonSettled id _ =>
      match pending w !! id with
      | Some p => kind (p_caller p)
      | None => false
      end
  | _ => false
  end.

Definition is_testConnection (k : Caller) : bool :=
  match k with K_testConnection => true | _ => false end.

Definition is_refreshStatus (k : Caller) : bool :=
  match k with K_refreshStatus => true | _ => false end.

(** The continuations of the six dispatchers. *)
Definition is_dispatcher (k : Caller) : bool :=
  match k with
  | K_testConnection | K_refreshStatus | K_loadApps => false
  | _ => true
  end.

(** The methods that show the loading overlay while their request is in
    flight. *)
Definition shows_overlay (k : Caller) : bool :=
  match k with
  | K_testConnection | K_setPower _ | K_setInput _ | K_launchApp _ => true
  | _ => false
  end.

(** The dot is on exactly under the label "Connected", and that label is
    never shown while the flag is off. *)
Definition label_agrees (w : World) : Prop :=
  (statusDot_connected (dom w) = true <-> statusText (dom w) = "Connected")
  /\ (statusText (dom w) = "Connected" -> isConnected w = true).

(** [v.name] for a value [v] that is neither null nor undefined. *)
Definition field_of (v : Value) (name : string) : Value :=
  match get v name with
  | Normal x => x
  | Abrupt _ => VUndefined
  end.

Definition nullish (v : Value) : bool :=
  match v with VUndefined | VNull => true | _ => false end.

(** The value converts to a string. *)
Definition printable (v : Value) : bool :=
  match toString v with Normal _ => true | Abrupt _ => false end.

(** The fields of a snapshot that [updateStatusDisplay] converts to
    strings all convert. *)
Definition displayable (tvInfo : Value) : bool :=
  printable (field_of tvInfo "power")
  && printable (field_of tvInfo "volume")
  && printable (field_of tvInfo "input").

(** The cards of the names of an apps list, up to the first name whose
    label does not convert. *)
Fixpoint cards (names : list Value) : list AppCard :=
  match names with
  | [] => []
  | appName :: rest =>
      match textContent_of appName with
      | Normal label => {| card_label := label; card_appName := appName |} :: cards rest
      | Abrupt _ => []
      end
  end.

(** Two documents that differ in the lines of the status display at
    most. *)
Definition same_but_display (d d' : Dom) : Prop :=
  statusText d' = statusText d
  /\ statusDot_connected d' = statusDot_connected d
  /\ loadingOverlay_hidden d' = loadingOverlay_hidden d
  /\ toastContainer d' = toastContainer d
  /\ appsGrid d' = appsGrid d
  /\ apiUrlInput_value d' = apiUrlInput_value d.

(** *** Settings

    [saveApiUrl] and [resetSettings] also write [localStorage]; a [Page] is
    the controller with the stored item [vizioApiUrl] beside it. *)

Definition with_apiUrl (u : string) (w : World) : World :=
  {| apiUrl := u; isConnected := isConnected w; tvInfo := tvInfo w; dom := dom w;
     console := console w; fetched := fetched w; pending := pending w |}.

Record Page : Type := {
  world : World;
  vizioApiUrl : option string;   (* localStorage.getItem('vizioApiUrl') *)
}.

Inductive PageEvent : Type :=
| PgEvent (ev : Event)           (* an event of the controller's loop *)
| PgEditApiUrl (text : string)   (* the user edits the #apiUrl input *)
| PgSaveApiUrl
| PgResetSettings
| PgReload (d : Dom)             (* the page is loaded again, on a fresh document *).

(** Loading the page: [new VizioTVController()] reads the stored item. *)
Definition load (item : option string) (d : Dom) : Page :=
  {| world := constructor item d; vizioApiUrl := item |}.

Section Settings.

(** [String.prototype.trim], which the settings are stated for as it
    comes. *)
Variable trim : string -> string.

Definition saveApiUrl (pg : Page) : Page :=
  let newUrl := trim (apiUrlInput_value (dom (world pg))) in
  let w := with_apiUrl newUrl (world pg) in
  {| world := snd (showToast "API URL saved" "success" w);
     vizioApiUrl := if negb (String.eqb newUrl "") then Some newUrl else None |}.

Definition resetSettings (pg : Page) : Page :=
  let w := with_apiUrl "" (world pg) in
  let w := with_dom (dom_apiUrlInput_value (apiUrl w)) w in
  {| world := snd (showToast "Settings reset" "success" w);
     vizioApiUrl := None |}.

Definition page_step (pg : Page) (ev : PageEvent) : Page :=
  match ev with
  | PgEvent e => {| world := step (world pg) e; vizioApiUrl := vizioApiUrl pg |}
  | PgEditApiUrl text =>
      {| world := with_dom (dom_apiUrlInput_value text) (world pg);
         vizioApiUrl := vizioApiUrl pg |}
  | PgSaveApiUrl => saveApiUrl pg
  | PgResetSettings => resetSettings pg
  | PgReload d => load (vizioApiUrl pg) d
  end.

Definition page_run (pg : Page) (evs : list PageEvent) : Page :=
  fold_left page_step evs pg.

End Settings.

(** [trim] on strings of ASCII characters, for the examples: tab, line
    feed, vertical tab, form feed, carriage return and space are stripped at
    both ends. *)
Definition ascii_space (c : Ascii.ascii) : bool :=
  let n := Ascii.nat_of_ascii c in
  ((9 <=? n) && (n <=? 13) || (n =? 32))%nat.

Fixpoint trim_start (s : string) : string :=
  match s with
  | String c rest => if ascii_space c then trim_start rest else s
  | EmptyString => EmptyString
  end.

Fixpoint trim_end (s : string) : string :=
  match s with
  | String c rest =>
      match trim_end rest with
      | EmptyString => if ascii_space c then EmptyString else String c EmptyString
      | kept => String c kept
      end
  | EmptyString => EmptyString
  end.

Definition trim_ascii (s : string) : string := trim_end (trim_start s).

(** More of the concrete session: the power request in flight; the status
    poll answered; a second poll issued while the first is still being read;
    the apps list about to be read. *)
Definition power_in_flight : World := step connected (EvIntent (Power (PStr "on"))).

Definition polled : World :=
  run connected [EvFetchSettled 1 http_200; EvJsonSettled 1 status_45].

Definition status_30 : Value :=
  VObj [("power", VStr "On"); ("volume", VNum (integer 30)); ("input", VStr "HDMI-2");
        ("muted", VBool true)].

(** An object that does not convert to a string, and two snapshots that
    carry it. *)
Definition own_toString : Value := VObj [("toString", VNum (integer 1))].

Definition status_bad_power : Value := VObj [("power", own_toString)].

Definition status_bad_input : Value :=
  VObj [("power", VStr "On"); ("volume", VNum (integer 0)); ("input", own_toString)].

Definition two_polls : World :=
  run connected [EvRefreshStatus; EvFetchSettled 1 http_200; EvFetchSettled 3 http_200].

Definition apps_listed : Value :=
  VObj [("apps", VArr [VStr "Netflix"; VStr "YouTube"])].

(** An apps list whose second entry does not convert to a string. *)
Definition apps_with_object : Value :=
  VObj [("apps", VArr [VStr "Netflix"; own_toString; VStr "Hulu"])].

Definition apps_being_read : World := run connected [EvFetchSettled 2 http_200].

Definition connected_page : Page := {| world := connected; vizioApiUrl := None |}.

(** The user types an origin with stray blanks and saves it. *)
Definition typed_origin : string := "  http://192.168.1.20:8000 ".

Definition saved : Page :=
  page_run trim_ascii (load None page) [PgEditApiUrl typed_origin; PgSaveApiUrl].

End Controller.

(** ** The service worker: static/sw.js *)

Module ServiceWorker.

(** A request URL as [new URL(...)] splits it. *)
Record Url : Type := {
  origin : string;
  pathname : string;
  search : string;
}.

#[global] Instance Url_eq_dec : EqDecision Url := ltac:(solve_decision).

#[global] Instance Url_countable : Countable Url :=
  inj_countable'
    (fun u => (origin u, pathname u, search u))
    (fun t => {| origin := t.1.1; pathname := t.1.2; search := t.2 |})
    (fun u => match u with Build_Url _ _ _ => eq_refl end).

Record Request : Type := {
  url : Url;
  method : string;
}.

(** A response: its status and its content.  Headers are not part of the
    embedding. *)
Record Response : Type := {
  status : Z;
  payload : string;
}.

Definition ok (r : Response) : bool := ((200 <=? status r) && (status r <=? 299))%Z.

Inductive FetchOutcome : Type :=
| FetchResponse (r : Response)
| FetchRejected (e : Error).

(** *** Cache storage

    One [Cache] maps request URLs to responses; [CacheStorage] keeps the
    named caches in the order they were created. *)

Definition CacheStorage : Type := list (string * gmap Url Response).

(** [cache.match(request)]: only a GET request matches, by its whole URL. *)
Definition cache_match (c : gmap Url Response) (request : Request) : option Response :=
  if String.eqb (method request) "GET" then c !! url request else None.

(** [caches.match(request)]: the first cache, in creation order, that has
    it; [None] is [undefined]. *)
Fixpoint caches_match (cs : CacheStorage) (request : Request) : option Response :=
  match cs with
  | [] => None
  | (_, c) :: rest =>
      match cache_match c request with
      | Some r => Some r
      | None => caches_match rest request
      end
  end.

Fixpoint caches_get (cs : CacheStorage) (name : string) : option (gmap Url Response) :=
  match cs with
  | [] => None
  | (n, c) :: rest => if String.eqb n name then Some c else caches_get rest name
  end.

Fixpoint caches_set (cs : CacheStorage) (name : string) (c : gmap Url Response)
    : CacheStorage :=
  match cs with
  | [] => [(name, c)]
  | (n, c0) :: rest =>
      if String.eqb n name then (n, c) :: rest else (n, c0) :: caches_set rest name c
  end.

(** [caches.open(name)] creates the cache when there is none of that name. *)
Definition caches_open (cs : CacheStorage) (name : string) : CacheStorage :=
  match caches_get cs name with
  | Some _ => cs
  | None => cs ++ [(name, ∅)]
  end.

Definition caches_keys (cs : CacheStorage) : list string := map fst cs.

Definition caches_delete (cs : CacheStorage) (name : string) : CacheStorage :=
  List.filter (fun nc => negb (String.eqb (fst nc) name)) cs.

(** What [cache.addAll] accepts: a response with an ok status other than
    206 (partial content). *)
Definition cacheable (r : Response) : bool := ok r && negb (status r =? 206)%Z.

(** [cache.addAll(urls)]: every URL is fetched; the entries are written
    only if every fetch brought a response that [addAll] accepts, otherwise
    the promise rejects and nothing is written. *)
Fixpoint fetch_all (net : Url -> FetchOutcome) (urls : list Url)
    : option (list (Url * Response)) :=
  match urls with
  | [] => Some []
  | u :: rest =>
      match net u with
      | FetchResponse r =>
          if cacheable r then
            match fetch_all net rest with
            | Some l => Some ((u, r) :: l)
            | None => None
            end
          else None
      | FetchRejected _ => None
      end
  end.

Definition put_all (entries : list (Url * Response)) (c : gmap Url Response)
    : gmap Url Response :=
  fold_left (fun acc e => <[fst e := snd e]> acc) entries c.

Definition addAll (net : Url -> FetchOutcome) (urls : list Url) (c : gmap Url Response)
    : option (gmap Url Response) :=
  match fetch_all net urls with
  | Some entries => Some (put_all entries c)
  | None => None
  end.

(** *** The worker *)

Definition CACHE_NAME : string := "vizio-tv-controller-v1".

Definition urlsToCache : list string :=
  ["/"; "/index.html"; "/styles.css"; "/app.js"; "/manifest.json"].

Record State : Type := {
  location_origin : string;   (* the origin the worker is served from *)
  caches : CacheStorage;
  fetched : list Request;     (* every network fetch of the worker, oldest first *)
}.

Definition with_caches (cs : CacheStorage) (st : State) : State :=
  {| location_origin := location_origin st; caches := cs; fetched := fetched st |}.

Definition with_fetched (l : list Request) (st : State) : State :=
  {| location_origin := location_origin st; caches := caches st; fetched := l |}.

(** A path of [urlsToCache], resolved against the worker's location. *)
Definition resolve (st_origin : string) (path : string) : Url :=
  {| origin := st_origin; pathname := path; search := "" |}.

Definition get_request (u : Url) : Request := {| url := u; method := "GET" |}.

(** The install listener. *)
Definition on_install (net : Url -> FetchOutcome) (st : State) : State :=
  let cs := caches_open (caches st) CACHE_NAME in
  let urls := map (resolve (location_origin st)) urlsToCache in
  let st' := with_fetched (fetched st ++ map get_request urls) (with_caches cs st) in
  match caches_get cs CACHE_NAME with
  | Some cache =>
      match addAll net urls cache with
      | Some cache' => with_caches (caches_set cs CACHE_NAME cache') st'
      | None => st'
      end
  | None => st'
  end.

(** The activate listener: every cache but [CACHE_NAME] is deleted. *)
Definition on_activate (st : State) : State :=
  with_caches
    (fold_left
       (fun cs cacheName =>
          if negb (String.eqb cacheName CACHE_NAME) then caches_delete cs cacheName else cs)
       (caches_keys (caches st)) (caches st))
    st.

(** What the page gets for its request. *)
Inductive Reply : Type :=
| Respond (r : Response)
| NetworkError.

(** [event.respondWith(p)]: the page gets the response [p] resolves to, and
    a network error when [p] rejects or resolves to something that is not a
    response ([undefined]). *)
Definition respondWith (p : Completion (option Response)) : Reply :=
  match p with
  | Normal (Some r) => Respond r
  | Normal None => NetworkError
  | Abrupt _ => NetworkError
  end.

Definition isApi (request : Request) : bool :=
  String.prefix "/tv/" (pathname (url request)) || String.eqb (pathname (url request)) "/health".

(** [fetch(event.request)] by the worker. *)
Definition net_fetch (net : FetchOutcome) : Completion (option Response) :=
  match net with
  | FetchResponse r => Normal (Some r)
  | FetchRejected e => Abrupt e
  end.

(** The fetch listener; [net] is how the network answers the request if
    the worker asks it. *)
Definition on_fetch (request : Request) (net : FetchOutcome) (st : State) : Reply * State :=
  if isApi request then
    (* fetch(event.request).catch(() => caches.match(event.request)) *)
    let st' := with_fetched (fetched st ++ [request]) st in
    match net_fetch net with
    | Abrupt _ => (respondWith (Normal (caches_match (caches st') request)), st')
    | settled => (respondWith settled, st')
    end
  else
    (* caches.match(event.request).then((response) => response || fetch(event.request)) *)
    match caches_match (caches st) request with
    | Some response => (respondWith (Normal (Some response)), st)
    | None =>
        let st' := with_fetched (fetched st ++ [request]) st in
        (respondWith (net_fetch net), st')
    end.

Inductive Event : Type :=
| Install (net : Url -> FetchOutcome)
| Activate
| Fetch (request : Request) (net : FetchOutcome)
| Sync (tag : string)
| Push
| NotificationClick (action : string).

(** The sync, push and notificationclick listeners touch neither the
    caches nor the network. *)
Definition step (st : State) (ev : Event) : State :=
  match ev with
  | Install net => on_install net st
  | Activate => on_activate st
  | Fetch request net => snd (on_fetch request net st)
  | Sync _ | Push | NotificationClick _ => st
  end.

Definition run (st : State) (evs : list Event) : State := fold_left step evs st.

(** A worker registered on an origin that has no cache yet. *)
Definition fresh (o : string) : State :=
  {| location_origin := o; caches := []; fetched := [] |}.

(** The requests by which the page issues commands. *)
Definition command_paths : list string :=
  ["/tv/power"; "/tv/volume"; "/tv/mute"; "/tv/input"; "/tv/app"; "/tv/remote"].

Definition is_command (request : Request) : bool :=
  String.eqb (method request) "POST"
  && existsb (String.eqb (pathname (url request))) command_paths.

(** *** Vocabulary of the properties *)

(** The URLs the install listener caches, on a worker served from [o]. *)
Definition static_urls (o : string) : list Url := map (resolve o) urlsToCache.

(** Every entry of every cache is keyed by one of the static URLs. *)
Definition only_static (o : string) (cs : CacheStorage) : Prop :=
  Forall (fun nc => forall k, is_Some (snd nc !! k) -> In k (static_urls o)) cs.

(** *** A concrete worker, for the examples *)

Definition site : string := "http://tv.local:8000".

Definition served (body : string) : Response := {| status := 200; payload := body |}.

(** A network on which every URL is served. *)
Definition online (u : Url) : FetchOutcome := FetchResponse (served (pathname u)).

Definition unreachable : FetchOutcome := FetchRejected (TypeError "Failed to fetch").

(** The worker once installed and activated, all assets fetched. *)
Definition installed : State := run (fresh site) [Install online; Activate].

Definition icon : Request := get_request (resolve site "/icon-192.png").

Definition stylesheet : Request := get_request (resolve site "/styles.css").

Definition tv_info : Request := get_request (resolve site "/tv/info").

Definition tv_power : Request := {| url := resolve site "/tv/power"; method := "POST" |}.

Definition stale_info : Response := served "power: On, volume: 30".

(** A cache storage in which a response to [/tv/info] has been put by other
    means: the worker itself never writes one. *)
Definition seeded : State :=
  {| location_origin := site;
     caches := [(CACHE_NAME, {[ url tv_info := stale_info ]})];
     fetched := [] |}.

(** The network serves every URL of the list with a response that
    [addAll] accepts: ok, and whole. *)
Definition serves (net : Url -> FetchOutcome) (urls : list Url) : Prop :=
  Forall (fun u => exists r, net u = FetchResponse r
                             /\ ok r = true /\ status r <> 206%Z) urls.

(** What the network answered for a URL, when it did. *)
Definition answer (net : Url -> FetchOutcome) (u : Url) : option Response :=
  match net u with
  | FetchResponse r => Some r
  | FetchRejected _ => None
  end.

(** A cache left by an earlier generation of the worker, and a network on
    which the stylesheet has changed since. *)
Definition upgraded_from : State :=
  {| location_origin := site;
     caches := [("vizio-tv-controller-v0",
                 {[ resolve site "/styles.css" := served "old stylesheet" ]})];
     fetched := [] |}.

(** A network that answers every URL with a part of the content. *)
Definition partial_content (u : Url) : FetchOutcome :=
  FetchResponse {| status := 206; payload := pathname u |}.

(** A network on which the manifest is missing. *)
Definition manifest_missing (u : Url) : FetchOutcome :=
  if String.eqb (pathname u) "/manifest.json"
  then FetchResponse {| status := 404; payload := "Not Found" |}
  else online u.

Definition index_with_query : Request :=
  get_request {| origin := site; pathname := "/index.html"; search := "?source=pwa" |}.

End ServiceWorker.

(** ** Tab navigation: [setupTabNavigation] *)

Module TabNavigation.

(** The elements of the document, in document order, with what the click
    listener reads and writes. *)
Record Element : Type := {
  el_id : option string;      (* the id attribute *)
  tab_btn : bool;             (* has class tab-btn *)
  tab_panel : bool;           (* has class tab-panel *)
  data_tab : option string;   (* the data-tab attribute *)
  active : bool;              (* has class active *)
}.

Definition set_active (b : bool) (e : Element) : Element :=
  {| el_id := el_id e; tab_btn := tab_btn e; tab_panel := tab_panel e;
     data_tab := data_tab e; active := b |}.

(** [nodes.forEach(n => n.classList.remove('active'))] over the elements
    of a class. *)
Definition remove_active (class : Element -> bool) (doc : list Element) : list Element :=
  map (fun e => if class e then set_active false e else e) doc.

Definition has_id (id : string) (e : Element) : bool :=
  match el_id e with
  | Some i => String.eqb i id && negb (String.eqb id "")
  | None => false
  end.

(** [document.getElementById(id)]: the position of the first element with
    that id, [None] for [null]. *)
Fixpoint getElementById (doc : list Element) (id : string) : option nat :=
  match doc with
  | [] => None
  | e :: rest =>
      if has_id id e then Some 0
      else match getElementById rest id with
           | Some j => Some (S j)
           | None => None
           end
  end.

(** [button.getAttribute('data-tab')] as [getElementById] receives it: a
    missing attribute is [null], looked up as the string "null". *)
Definition targetTab (button : Element) : string :=
  match data_tab button with
  | Some t => t
  | None => "null"
  end.

(** A click on element [i].  Only the elements of class tab-btn have the
    listener. *)
Definition click (i : nat) (doc : list Element) : Completion unit * list Element :=
  match doc !! i with
  | Some button =>
      if tab_btn button then
        let doc1 := remove_active tab_btn doc in
        let doc2 := alter (set_active true) i doc1 in
        let doc3 := remove_active tab_panel doc2 in
        match getElementById doc3 (targetTab button) with
        | Some j => (Normal tt, alter (set_active true) j doc3)
        | None =>
            (Abrupt (TypeError "Cannot read properties of null (reading 'classList')"),
             doc3)
        end
      else (Normal tt, doc)
  | None => (Normal tt, doc)
  end.

(** No element is both a tab button and a tab panel. *)
Definition classes_apart (doc : list Element) : Prop :=
  Forall (fun e => tab_btn e && tab_panel e = false) doc.

(** *** A concrete page, for the examples *)

Definition button_for (t : string) (on : bool) : Element :=
  {| el_id := None; tab_btn := true; tab_panel := false; data_tab := Some t; active := on |}.

Definition panel (id : string) (on : bool) : Element :=
  {| el_id := Some id; tab_btn := false; tab_panel := true; data_tab := None; active := on |}.

Definition tabs : list Element :=
  [button_for "remote" true; button_for "apps" false; button_for "settings" false;
   panel "remote" true; panel "apps" false; panel "settings" false].

(** The same page with a button whose panel is missing. *)
Definition broken_tabs : list Element :=
  [button_for "remote" true; button_for "inputs" false;
   panel "remote" true; panel "apps" false].

End TabNavigation.

(** * Conversions to strings *)

Lemma Value_ind_elems (P : Value -> Prop) :
  P VUndefined -> P VNull -> (forall b, P (VBool b)) -> (forall n, P (VNum n)) ->
  (forall s, P (VStr s)) -> (forall elems, Forall P elems -> P (VArr elems)) ->
  (forall props, P (VObj props)) ->
  forall v, P v.
Proof.
  intros Hu Hn Hb Hi Hs Ha Ho.
  exact (fix go (v : Value) : P v :=
           match v with
           | VUndefined => Hu
           | VNull => Hn
           | VBool b => Hb b
           | VNum n => Hi n
           | VStr s => Hs s
           | VArr elems =>
               Ha elems
                 ((fix all (es : list Value) : Forall P es :=
                     match es with
                     | [] => @List.Forall_nil _ P
                     | e :: rest => @List.Forall_cons _ P e rest (go e) (all rest)
                     end) elems)
           | VObj props => Ho props
           end).
Qed.

(** The only error a conversion throws. *)
Lemma toString_error (v : Value) (e : Error) :
  toString v = Abrupt e -> e = cannot_convert.
Proof.
  revert e. induction v as [| | b | n | s | elems IH | props] using Value_ind_elems;
    intros e H; try discriminate H.
  - cbn [toString] in H.
    destruct (join_elements toString elems) as [parts|e'] eqn:E; [discriminate H|].
    injection H as <-. clear -IH E. revert e' E.
    induction IH as [|x rest Hx _ IHrest]; intros e' E; cbn [join_elements] in E;
      [discriminate E|].
    destruct (convert_element toString x) as [s|ex] eqn:Ex.
    + destruct (join_elements toString rest) as [parts|er]; [discriminate E|].
      injection E as <-. apply IHrest. reflexivity.
    + injection E as <-. apply Hx. destruct x; try discriminate Ex; exact Ex.
  - cbn [toString] in H. destruct (has_own "toString" props); [|discriminate H].
    injection H as <-. reflexivity.
Qed.

(** A primitive always converts. *)
Lemma toString_of_primitive (p : Primitive) :
  toString (of_primitive p) = Normal (Primitive_toString p).
Proof. destruct p; reflexivity. Qed.

(** So does a falsy value. *)
Lemma falsy_converts (v : Value) : truthy v = false -> exists s, toString v = Normal s.
Proof. destruct v; try discriminate; intros _; eexists; reflexivity. Qed.

Lemma textContent_of_or_else (v : Value) (u : string) :
  textContent_of (or_else v (VStr u)) = if truthy v then toString v else Normal u.
Proof.
  unfold or_else. destruct v as [| |[]|n|s|elems|props]; cbn [truthy]; try reflexivity.
  - destruct (negb (int_value n =? 0)%Z); reflexivity.
  - destruct (negb (String.eqb s "")); reflexivity.
Qed.

Lemma toString_or_else (v d : Value) :
  toString (or_else v d) = if truthy v then toString v else toString d.
Proof. unfold or_else. destruct (truthy v); reflexivity. Qed.

Lemma inputValue_of_toString (v : Value) :
  inputValue_of v
  = match toString v with
    | Normal s => Normal (match v with VNull => "" | _ => s end)
    | Abrupt e => Abrupt e
    end.
Proof.
  destruct v; try reflexivity; cbn [inputValue_of]; destruct (toString _); reflexivity.
Qed.

Lemma get_field_of (v : Value) (name : string) :
  Controller.nullish v = false -> get v name = Normal (Controller.field_of v name).
Proof. destruct v; try discriminate; reflexivity. Qed.

(** [updateStatusDisplay] on a snapshot whose fields have been read, as a
    cascade of conversions. *)
Ltac unfold_display :=
  unfold Controller.updateStatusDisplay, Controller.field_of; cbn [get];
  unfold Controller.bind, Controller.await, Controller.modify, Controller.ret;
  cbv beta iota;
  rewrite ?textContent_of_or_else, ?toString_or_else, ?inputValue_of_toString.

(** The two ways the conversion of a field goes: it gives a string, or it
    throws, and then the field is truthy. *)
Ltac conversion x :=
  let s := fresh "s" in
  let e := fresh "e" in
  let T := fresh "T" in
  let B := fresh "B" in
  destruct (toString x) as [s|e] eqn:T;
  [ destruct (truthy x) eqn:B
  | pose proof (toString_error x e T); subst e;
    assert (truthy x = true) as B
      by (destruct (truthy x) eqn:B; [reflexivity|];
          destruct (falsy_converts x B) as [? ?]; congruence);
    rewrite ?B ].

(** * Properties of the session layer *)

Section Session.
Import Controller.

(** ** Scenarios *)

Example toString_nested_array :
  toString (VArr [VNum (integer 1); VNull; VStr "a"; VArr [VBool true; VNum (integer (-2))]])
  = Normal "1,,a,true,-2".
Proof. reflexivity. Qed.

(** A parsed object converts to "[object Object]" unless it has an entry
    named [toString]; then it does not convert, and neither does an array
    that holds it. *)
Example toString_object :
  toString (VObj [("name", VStr "Netflix")]) = Normal "[object Object]"
  /\ toString (VObj [("toString", VNum (integer 1))]) = Abrupt cannot_convert
  /\ toString (VArr [VStr "a"; VObj [("toString", VNull)]; VStr "b"]) = Abrupt cannot_convert
  /\ toString (VObj [("valueOf", VNum (integer 1))]) = Normal "[object Object]".
Proof. repeat apply conj; reflexivity. Qed.

(** Fresh load, the probe answers 200: the session is connected and
    [/tv/info] and [/tv/apps] have each been requested once. *)
Example fresh_load_connects :
  isConnected connected = true
  /\ statusText (dom connected) = "Connected"
  /\ fetched connected
     = [{| url := "/health"; method := "GET"; body := None |};
        {| url := "/tv/info"; method := "GET"; body := None |};
        {| url := "/tv/apps"; method := "GET"; body := None |}].
Proof. repeat apply conj; vm_compute; reflexivity. Qed.

(** [POST /tv/volume {volume: 45}] succeeds: [/tv/info] is fetched again,
    and when it returns volume 45 the page shows 45%. *)
Example volume_45_is_displayed :
  let w := run connected
             [EvIntent (Volume (PNum (integer 45))); EvFetchSettled 3 http_200;
              EvJsonSettled 3 healthy; EvFetchSettled 4 http_200;
              EvJsonSettled 4 status_45] in
  fetched w
  = fetched connected
    ++ [{| url := "/tv/volume"; method := "POST";
           body := Some (VObj [("volume", VNum (integer 45))]) |};
        {| url := "/tv/info"; method := "GET"; body := None |}]
  /\ volumeStatus (dom w) = "45%"
  /\ volumeSlider_value (dom w) = "45"
  /\ volumeValue (dom w) = "45%".
Proof. cbv zeta. repeat apply conj; vm_compute; reflexivity. Qed.

(** A probe answered 200 with the JSON body [null] counts as failed: the
    controller tests the parsed body, not the status. *)
Example probe_with_null_body :
  let w := run started [EvFetchSettled 0 http_200; EvJsonSettled 0 (JsonParsed VNull)] in
  isConnected w = false /\ statusText (dom w) = "Disconnected".
Proof. cbv zeta. split; vm_compute; reflexivity. Qed.

(** Testing the connection again does not clear the flag: while the new
    probe is in flight the label reads "Connecting..." and commands are
    still sent. *)
Example retest_keeps_flag :
  let w := step connected EvTestConnection in
  isConnected w = true
  /\ statusText (dom w) = "Connecting..."
  /\ fetched (step w (EvIntent (RemoteKey (VStr "OK"))))
     = fetched w ++ [{| url := "/tv/remote"; method := "POST";
                        body := Some (VObj [("key", VStr "OK")]) |}].
Proof. cbv zeta. repeat apply conj; vm_compute; reflexivity. Qed.

(** ** How a request in flight settles *)

Lemma makeApiRequest_fetched_failure (o : FetchOutcome) (w : World) :
  transport_failure o = true ->
  makeApiRequest_fetched o w
  = (Normal (Some VNull), snd (makeApiRequest_catch (failure_error o) w)).
Proof.
  intros Hf. destruct o as [r|e]; simpl in Hf.
  - unfold makeApiRequest_fetched, await_fetch, makeApiRequest_catch, console_error,
      showToast; run_monad. rewrite Hf. reflexivity.
  - reflexivity.
Qed.

Lemma makeApiRequest_fetched_ok (r : Response) (w : World) :
  ok r = true -> makeApiRequest_fetched (FetchResponse r) w = (Normal None, w).
Proof.
  intros Hok. unfold makeApiRequest_fetched, await_fetch; run_monad.
  rewrite Hok. reflexivity.
Qed.

Lemma makeApiRequest_catch_state (e : Error) (w : World) :
  snd (makeApiRequest_catch e w)
  = with_dom (dom_toast (toast_error "Connection failed"))
      (with_console (console w ++ [("API request failed:", e)]) w).
Proof. reflexivity. Qed.

(** A caller that observes [null] does nothing but, for [testConnection],
    mark the session disconnected and, where the method has a [finally],
    hide the loading overlay. *)
Lemma resume_null (k : Caller) (w : World) :
  resume k (Normal VNull) w
  = (Normal tt,
     match k with
     | K_testConnection =>
         with_dom (dom_overlay true)
           (with_dom (dom_toast (toast_error "Failed to connect"))
              (with_dom (dom_status "Disconnected" false) (with_isConnected false w)))
     | K_setPower _ | K_setInput _ | K_launchApp _ => with_dom (dom_overlay true) w
     | _ => w
     end).
Proof. destruct k; reflexivity. Qed.

Lemma fetch_settled_failure (id : nat) (o : FetchOutcome) (p : Pending) (w : World) :
  pending w !! id = Some p -> p_stage p = AwaitFetch -> transport_failure o = true ->
  fetch_settled id o w
  = snd (resume (p_caller p) (Normal VNull)
           (snd (makeApiRequest_catch (failure_error o) (drop_pending id w)))).
Proof.
  intros Hp Hs Hf. unfold fetch_settled. rewrite Hp, Hs.
  rewrite (makeApiRequest_fetched_failure o _ Hf). reflexivity.
Qed.

Lemma fetch_settled_ok (id : nat) (r : Response) (p : Pending) (w : World) :
  pending w !! id = Some p -> p_stage p = AwaitFetch -> ok r = true ->
  fetch_settled id (FetchResponse r) w
  = park_pending id (reading_body (p_request p) (p_caller p)) (drop_pending id w).
Proof.
  intros Hp Hs Hok. unfold fetch_settled. rewrite Hp, Hs.
  rewrite (makeApiRequest_fetched_ok r _ Hok). reflexivity.
Qed.

Lemma json_settled_parsed (id : nat) (v : Value) (p : Pending) (w : World) :
  pending w !! id = Some p -> p_stage p = AwaitJson ->
  json_settled id (JsonParsed v) w = snd (resume (p_caller p) (Normal v) (drop_pending id w)).
Proof. intros Hp Hs. unfold json_settled. rewrite Hp, Hs. reflexivity. Qed.

(** ** The guard of the dispatchers *)

Lemma dispatch_connected (i : Intent) (w : World) :
  isConnected w = true ->
  snd (dispatch i w)
  = with_net (fetched w ++ [request_of w i])
      (<[length (fetched w) := in_flight (request_of w i) (caller_of i)]> (pending w))
      (match i with
       | Power _ | Input _ | AppLaunch _ => with_dom (dom_overlay false) w
       | _ => w
       end).
Proof.
  intros Hc.
  destruct i; unfold dispatch, setPower, setVolume, setMute, setInput, launchApp,
    sendRemoteKey, showLoading; run_monad; rewrite Hc, ?toString_of_primitive;
    reflexivity.
Qed.

Lemma dispatch_not_connected (i : Intent) (w : World) :
  isConnected w = false ->
  dispatch i w = (Normal tt, with_dom (dom_toast (toast_error "Not connected to TV")) w).
Proof.
  intros Hc.
  destruct i; unfold dispatch, setPower, setVolume, setMute, setInput, launchApp,
    sendRemoteKey; run_monad; rewrite Hc; reflexivity.
Qed.

(** C5, as stated, fails where the state shown is not Connected while
    the flag is still set.  On a session whose probe succeeded the offline
    signal sets the state to "Offline": the power command that follows is
    not rejected, it is sent, and no notice is shown.  Likewise while the
    connection is being tested again and the state reads "Connecting...". *)
Lemma offline_session_still_dispatches :
  statusText (dom gone_offline) = "Offline"
  /\ statusText (dom gone_offline) <> "Connected"
  /\ fetched (step gone_offline (EvIntent (Power (PStr "on"))))
     = fetched gone_offline
       ++ [{| url := "/tv/power"; method := "POST";
              body := Some (VObj [("power", VStr "on")]) |}]
  /\ toastContainer (dom (step gone_offline (EvIntent (Power (PStr "on")))))
     = toastContainer (dom gone_offline)
  /\ statusText (dom retesting) = "Connecting..."
  /\ fetched (step retesting (EvIntent (RemoteKey (VStr "OK"))))
     = fetched retesting
       ++ [{| url := "/tv/remote"; method := "POST";
              body := Some (VObj [("key", VStr "OK")]) |}]
  /\ toastContainer (dom (step retesting (EvIntent (RemoteKey (VStr "OK")))))
     = toastContainer (dom retesting).
Proof.
  repeat apply conj; try (vm_compute; reflexivity). vm_compute. discriminate.
Qed.

(** C5, amended. What every dispatcher tests is the flag [isConnected],
    not the state shown.  For every intent kind (power, volume, mute, input,
    app-launch, remote-key), when the flag is false (from the load of the
    page until a health probe succeeds, and after a health probe has failed)
    the dispatcher rejects the intent at once with the "Not connected to TV"
    notice and issues no network request: the log of [fetch] calls and the
    requests in flight are unchanged.  When the flag is set the intent is
    sent and no notice is shown, whatever the state shown; the offline
    signal and the start of a connection test set that state to "Offline"
    and "Connecting..." and leave the flag as it was. *)
Theorem dispatch_guarded_by_flag (i : Intent) (w : World) :
  (isConnected w = false ->
   dispatch i w = (Normal tt, with_dom (dom_toast (toast_error "Not connected to TV")) w)
   /\ fetched (step w (EvIntent i)) = fetched w
   /\ pending (step w (EvIntent i)) = pending w
   /\ isConnected (step w (EvIntent i)) = false)
  /\ (isConnected w = true ->
      fetched (step w (EvIntent i)) = fetched w ++ [request_of w i]
      /\ toastContainer (dom (step w (EvIntent i))) = toastContainer (dom w))
  /\ (statusText (dom (step w EvOffline)) = "Offline"
      /\ isConnected (step w EvOffline) = isConnected w)
  /\ (statusText (dom (step w EvTestConnection)) = "Connecting..."
      /\ isConnected (step w EvTestConnection) = isConnected w).
Proof.
  repeat apply conj; try reflexivity.
  - intros Hc. pose proof (dispatch_not_connected i w Hc) as E.
    unfold step. rewrite E. cbn [snd]. auto.
  - intros Hc. unfold step. rewrite (dispatch_connected i w Hc).
    split; [reflexivity|]. destruct i; reflexivity.
Qed.

Lemma dispatch_guarded_by_flag_witness :
  (isConnected started = false
   /\ fetched (step started (EvIntent (Volume (PNum (integer 45))))) = fetched started
   /\ pending (step started (EvIntent (Volume (PNum (integer 45))))) = pending started)
  /\ (isConnected gone_offline = true
      /\ fetched (step gone_offline (EvIntent (Volume (PNum (integer 45)))))
         = fetched gone_offline ++ [request_of gone_offline (Volume (PNum (integer 45)))]).
Proof.
  destruct (dispatch_guarded_by_flag (Volume (PNum (integer 45))) started) as (H & _).
  destruct (dispatch_guarded_by_flag (Volume (PNum (integer 45))) gone_offline)
    as (_ & H' & _).
  assert (isConnected gone_offline = true) as Hc by (vm_compute; reflexivity).
  split.
  - split; [reflexivity|]. destruct (H eq_refl) as (_ & Hf & Hp & _).
    split; [exact Hf | exact Hp].
  - split; [exact Hc|]. exact (proj1 (H' Hc)).
Defined.

(** ** Transport failures *)

(** C1, as stated, fails: after the health probe has answered 200 the
    session is connected; the power command is sent and times out; the
    session is still connected (flag and label), not Disconnected, and the
    volume command that follows is sent to the network, not rejected. *)
Lemma failed_command_stays_connected :
  isConnected connected = true
  /\ pending (step connected (EvIntent (Power (PStr "on")))) !! 3
     = Some (in_flight (request_of connected (Power (PStr "on"))) (K_setPower (VStr "on")))
  /\ transport_failure timed_out = true
  /\ isConnected power_timed_out = true
  /\ statusText (dom power_timed_out) = "Connected"
  /\ statusText (dom power_timed_out) <> "Disconnected"
  /\ fetched (step power_timed_out (EvIntent (Volume (PNum (integer 45)))))
     = fetched power_timed_out
       ++ [{| url := "/tv/volume"; method := "POST";
              body := Some (VObj [("volume", VNum (integer 45))]) |}]
  /\ fetched (step power_timed_out (EvIntent (Volume (PNum (integer 45))))) <> fetched power_timed_out.
Proof.
  repeat apply conj; try (vm_compute; reflexivity); vm_compute; discriminate.
Qed.

(** C1, amended. When a request issued by a command or by a status or
    apps fetch fails at the transport level (no response, or a status
    outside 200-299), a "Connection failed" notice is shown and the
    connection state is left as it was: [isConnected] and the status label
    are unchanged and nothing is sent again, so while [isConnected] holds a
    command issued afterwards is still sent to the network.  Only a failed
    health probe moves the session to Disconnected, after which every
    command is rejected locally, before any network call. *)
Theorem transport_failure_keeps_session (w : World) (id : nat) (p : Pending)
    (o : FetchOutcome) :
  pending w !! id = Some p -> p_stage p = AwaitFetch -> transport_failure o = true ->
  let w' := step w (EvFetchSettled id o) in
  match p_caller p with
  | K_testConnection =>
      isConnected w' = false
      /\ statusText (dom w') = "Disconnected"
      /\ forall i, fetched (step w' (EvIntent i)) = fetched w'
  | _ =>
      isConnected w' = isConnected w
      /\ statusText (dom w') = statusText (dom w)
      /\ toastContainer (dom w') = toastContainer (dom w) ++ [toast_error "Connection failed"]
      /\ fetched w' = fetched w
      /\ (isConnected w = true ->
          forall i, fetched (step w' (EvIntent i)) = fetched w' ++ [request_of w' i])
  end.
Proof.
  intros Hp Hs Hf w'.
  assert (w' = snd (resume (p_caller p) (Normal VNull)
                      (snd (makeApiRequest_catch (failure_error o) (drop_pending id w)))))
    as E by (apply fetch_settled_failure; assumption).
  rewrite resume_null, makeApiRequest_catch_state in E. clearbody w'. subst w'.
  destruct (p_caller p); cbn [snd];
    try (repeat apply conj; try reflexivity;
         intros Hc i; unfold step; rewrite dispatch_connected by exact Hc;
         reflexivity).
  repeat apply conj; try reflexivity. intros i.
  unfold step. rewrite dispatch_not_connected by reflexivity. reflexivity.
Qed.

Lemma transport_failure_keeps_session_witness :
  isConnected power_timed_out = true
  /\ statusText (dom power_timed_out) = "Connected"
  /\ fetched (step power_timed_out (EvIntent (Volume (PNum (integer 45)))))
     = fetched power_timed_out ++ [request_of power_timed_out (Volume (PNum (integer 45)))].
Proof.
  assert (pending (step connected (EvIntent (Power (PStr "on")))) !! 3
          = Some (in_flight (request_of connected (Power (PStr "on")))
                    (K_setPower (VStr "on")))) as Hp
    by (vm_compute; reflexivity).
  destruct (transport_failure_keeps_session _ 3 _ timed_out Hp eq_refl eq_refl)
    as (Hc & Ht & _ & _ & Hn).
  assert (isConnected (step connected (EvIntent (Power (PStr "on")))) = true) as Hc0
    by (vm_compute; reflexivity).
  change power_timed_out
    with (step (step connected (EvIntent (Power (PStr "on")))) (EvFetchSettled 3 timed_out)).
  split; [rewrite <- Hc0; exact Hc|].
  split; [rewrite Ht; vm_compute; reflexivity|].
  exact (Hn Hc0 (Volume (PNum (integer 45)))).
Defined.

(** ** Network signals of the platform *)

(** C2, as stated, fails: on a connected session the offline signal
    followed by the online signal leaves the label at "Offline", not at
    "Connecting...", issues no probe (no request at all), and the session
    flag is still set. *)
Lemma online_issues_no_probe :
  statusText (dom (run connected [EvOffline; EvOnline])) = "Offline"
  /\ statusText (dom (run connected [EvOffline; EvOnline])) <> "Connecting..."
  /\ fetched (run connected [EvOffline; EvOnline]) = fetched connected
  /\ pending (run connected [EvOffline; EvOnline]) = pending connected
  /\ isConnected (run connected [EvOffline; EvOnline]) = true.
Proof.
  repeat apply conj; try (vm_compute; reflexivity). vm_compute. discriminate.
Qed.

(** C2, amended. For every state, the network-offline signal sets the
    status label to "Offline" (dot off, "No internet connection" notice) and
    leaves [isConnected] as it was; the network-online signal that follows
    only shows a "Back online" notice: no probe is issued, the label stays
    "Offline" and [isConnected] keeps its value. *)
Theorem offline_online_signals (w : World) :
  let w1 := step w EvOffline in
  let w2 := step w1 EvOnline in
  (statusText (dom w1) = "Offline"
   /\ statusDot_connected (dom w1) = false
   /\ isConnected w1 = isConnected w
   /\ toastContainer (dom w1) = toastContainer (dom w) ++ [toast_error "No internet connection"])
  /\ (statusText (dom w2) = "Offline"
      /\ isConnected w2 = isConnected w
      /\ fetched w2 = fetched w
      /\ pending w2 = pending w
      /\ toastContainer (dom w2) = toastContainer (dom w1) ++ [toast_success "Back online"]).
Proof. cbv zeta. repeat apply conj; reflexivity. Qed.

End Session.

Section Dispatch.
Import Controller.

(** ** Commands on a connected session *)

(** C7. For every dispatched intent (one that passes the guard), exactly
    one control-plane request is sent: the dispatcher sends the request of
    its kind, and nothing more is sent while that request is fetched.  On
    success (the request resolves to a truthy parsed body, which is what the
    dispatcher tests) the power, volume, mute and input dispatchers call
    [refreshStatus], which polls [/tv/info] once unless the session has been
    marked disconnected in the meantime; the app-launch and remote-key
    dispatchers send nothing further. *)
Theorem dispatch_sends_once_and_repolls (i : Intent) (w : World) :
  (isConnected w = true ->
   fetched (step w (EvIntent i)) = fetched w ++ [request_of w i]
   /\ pending (step w (EvIntent i))
      = <[length (fetched w) := in_flight (request_of w i) (caller_of i)]> (pending w))
  /\ (forall id r o,
        pending w !! id = Some (in_flight r (caller_of i)) ->
        fetched (step w (EvFetchSettled id o)) = fetched w)
  /\ (forall id r v,
        pending w !! id = Some (reading_body r (caller_of i)) ->
        truthy v = true ->
        let w' := step w (EvJsonSettled id (JsonParsed v)) in
        match i with
        | Power _ | Volume _ | Mute _ | Input _ =>
            if isConnected w then
              fetched w' = fetched w ++ [get_request w "/tv/info"]
              /\ pending w'
                 = <[length (fetched w) := in_flight (get_request w "/tv/info") K_refreshStatus]>
                     (delete id (pending w))
            else fetched w' = fetched w /\ pending w' = delete id (pending w)
        | AppLaunch _ | RemoteKey _ =>
            fetched w' = fetched w /\ pending w' = delete id (pending w)
        end).
Proof.
  repeat apply conj.
  - intros Hc. unfold step. rewrite (dispatch_connected i w Hc).
    split; reflexivity.
  - intros id r o Hp. unfold step.
    destruct (transport_failure o) eqn:Hf.
    + rewrite (fetch_settled_failure id o _ w Hp eq_refl Hf), resume_null.
      destruct i; reflexivity.
    + destruct o as [resp|e]; [|discriminate Hf].
      apply negb_false_iff in Hf.
      rewrite (fetch_settled_ok id resp _ w Hp eq_refl Hf). reflexivity.
  - intros id r v Hp Hv w'. subst w'. unfold step.
    rewrite (json_settled_parsed id v _ w Hp eq_refl).
    destruct i; cbn [caller_of reading_body p_caller resume];
      unfold setPower_resumed, setVolume_resumed, setMute_resumed, setInput_resumed,
        launchApp_resumed, sendRemoteKey_resumed, refreshStatus, showToast, showLoading;
      run_monad; rewrite Hv, ?toString_of_primitive;
      try (destruct (toString _));
      cbn [drop_pending with_net with_dom isConnected];
      try (destruct (isConnected w)); split; reflexivity.
Qed.

Lemma dispatch_sends_once_and_repolls_witness :
  fetched (step connected (EvIntent (Volume (PNum (integer 45)))))
  = fetched connected ++ [request_of connected (Volume (PNum (integer 45)))]
  /\ (let w := run connected [EvIntent (Volume (PNum (integer 45))); EvFetchSettled 3 http_200] in
      fetched (step w (EvJsonSettled 3 healthy)) = fetched w ++ [get_request w "/tv/info"])
  /\ (let w := run connected [EvIntent (RemoteKey (VStr "OK")); EvFetchSettled 3 http_200] in
      fetched (step w (EvJsonSettled 3 healthy)) = fetched w).
Proof.
  repeat apply conj.
  - destruct (dispatch_sends_once_and_repolls (Volume (PNum (integer 45))) connected) as (H & _ & _).
    assert (isConnected connected = true) as Hc by (vm_compute; reflexivity).
    exact (proj1 (H Hc)).
  - intros w.
    destruct (dispatch_sends_once_and_repolls (Volume (PNum (integer 45))) w) as (_ & _ & H).
    assert (pending w !! 3
            = Some (reading_body (request_of connected (Volume (PNum (integer 45))))
                      (caller_of (Volume (PNum (integer 45)))))) as Hp
      by (vm_compute; reflexivity).
    specialize (H 3 _ (VObj [("status", VStr "healthy")]) Hp eq_refl).
    cbv zeta in H.
    assert (isConnected w = true) as Hc by (vm_compute; reflexivity).
    rewrite Hc in H. exact (proj1 H).
  - intros w.
    destruct (dispatch_sends_once_and_repolls (RemoteKey (VStr "OK")) w) as (_ & _ & H).
    assert (pending w !! 3
            = Some (reading_body (request_of connected (RemoteKey (VStr "OK")))
                      (caller_of (RemoteKey (VStr "OK"))))) as Hp
      by (vm_compute; reflexivity).
    exact (proj1 (H 3 _ (VObj [("status", VStr "healthy")]) Hp eq_refl)).
Defined.

(** ** [makeApiRequest] at its call boundary *)

(** C9. For every endpoint, method and payload, [makeApiRequest] is total
    at its call boundary: the call itself completes normally; when [fetch]
    settles it either goes on to read the body (an ok response) or returns
    [null] (no response, or a status outside 200-299); when the body is read
    it returns the parsed value, or [null] if the body does not parse.  It
    never throws: the event loop resumes its caller with a value in every
    case, and with [null] on every failure, where each dispatcher does
    nothing (beyond hiding the overlay it had shown): a failed request
    does not run the [catch] blocks of the dispatchers. *)
Theorem makeApiRequest_never_throws :
  (forall endpoint method data k w,
     fst (makeApiRequest endpoint method data k w) = Normal tt)
  /\ (forall o w,
        makeApiRequest_fetched o w
        = if transport_failure o
          then (Normal (Some VNull), snd (makeApiRequest_catch (failure_error o) w))
          else (Normal None, w))
  /\ (forall j w,
        makeApiRequest_parsed j w
        = match j with
          | JsonParsed v => (Normal v, w)
          | JsonRejected e => (Normal VNull, snd (makeApiRequest_catch e w))
          end)
  /\ (forall id o w,
        fetch_settled id o w
        = match pending w !! id with
          | Some (Build_Pending r AwaitFetch k) =>
              if transport_failure o
              then snd (resume k (Normal VNull)
                          (snd (makeApiRequest_catch (failure_error o) (drop_pending id w))))
              else park_pending id (reading_body r k) (drop_pending id w)
          | _ => w
          end)
  /\ (forall id j w,
        json_settled id j w
        = match pending w !! id with
          | Some (Build_Pending r AwaitJson k) =>
              match j with
              | JsonParsed v => snd (resume k (Normal v) (drop_pending id w))
              | JsonRejected e =>
                  snd (resume k (Normal VNull)
                         (snd (makeApiRequest_catch e (drop_pending id w))))
              end
          | _ => w
          end)
  /\ (forall i w,
        resume (caller_of i) (Normal VNull) w
        = (Normal tt,
           match i with
           | Power _ | Input _ | AppLaunch _ => with_dom (dom_overlay true) w
           | _ => w
           end)).
Proof.
  assert (forall o w,
            makeApiRequest_fetched o w
            = if transport_failure o
              then (Normal (Some VNull), snd (makeApiRequest_catch (failure_error o) w))
              else (Normal None, w)) as Hfetched.
  { intros o w. destruct (transport_failure o) eqn:Hf.
    - apply makeApiRequest_fetched_failure, Hf.
    - destruct o as [r|e]; [|discriminate Hf].
      apply negb_false_iff in Hf. apply makeApiRequest_fetched_ok, Hf. }
  repeat apply conj.
  - reflexivity.
  - exact Hfetched.
  - intros [v|e] w; reflexivity.
  - intros id o w. unfold fetch_settled.
    destruct (pending w !! id) as [[r [] k]|]; try reflexivity.
    cbn [p_stage p_caller p_request]. rewrite Hfetched.
    destruct (transport_failure o); reflexivity.
  - intros id j w. unfold json_settled.
    destruct (pending w !! id) as [[r [] k]|]; try reflexivity.
    destruct j; reflexivity.
  - intros i w. rewrite resume_null. destruct i; reflexivity.
Qed.

(** ** The status display *)

(** C10, as stated, fails on a snapshot with a field that does not
    convert to a string: the display shows volume 45; a snapshot without
    volume whose [power] is such a value makes [updateStatusDisplay] throw at
    its first line, and the volume status still reads "45%", not "0%"; a
    snapshot with volume 0 whose [input] is such a value gets "0%" written
    and throws before the slider is reached, which still shows 45. *)
Lemma unconvertible_field_stops_display :
  volumeStatus (dom polled) = "45%"
  /\ volumeSlider_value (dom polled) = "45"
  /\ get status_bad_power "volume" = Normal VUndefined
  /\ fst (updateStatusDisplay status_bad_power polled) = Abrupt cannot_convert
  /\ volumeStatus (dom (snd (updateStatusDisplay status_bad_power polled))) = "45%"
  /\ volumeStatus (dom (snd (updateStatusDisplay status_bad_power polled))) <> "0%"
  /\ get status_bad_input "volume" = Normal (VNum (integer 0))
  /\ fst (updateStatusDisplay status_bad_input polled) = Abrupt cannot_convert
  /\ volumeStatus (dom (snd (updateStatusDisplay status_bad_input polled))) = "0%"
  /\ volumeSlider_value (dom (snd (updateStatusDisplay status_bad_input polled))) = "45"
  /\ volumeSlider_value (dom (snd (updateStatusDisplay status_bad_input polled))) <> "0".
Proof.
  repeat apply conj; try (vm_compute; reflexivity); vm_compute; discriminate.
Qed.

(** C10, amended. For every status snapshot passed to
    [updateStatusDisplay] whose [power] field converts to a string (the line
    written before the volume) and whose [volume] field is undefined, the
    volume status text is rendered as "0%" while the volume slider and its
    percentage label keep their previous values; when the [volume] field is
    0, the text reads "0%" and, if the [input] field (written between the
    text and the slider) converts as well, the slider is set to 0 and its
    label reads "0%". *)
Theorem updateStatusDisplay_volume (tvInfo : Value) (w : World) :
  printable (field_of tvInfo "power") = true ->
  let w' := snd (updateStatusDisplay tvInfo w) in
  (get tvInfo "volume" = Normal VUndefined ->
   volumeStatus (dom w') = "0%"
   /\ volumeSlider_value (dom w') = volumeSlider_value (dom w)
   /\ volumeValue (dom w') = volumeValue (dom w)
   /\ (printable (field_of tvInfo "input") = true ->
       fst (updateStatusDisplay tvInfo w) = Normal tt))
  /\ (get tvInfo "volume" = Normal (VNum (integer 0)) ->
      volumeStatus (dom w') = "0%"
      /\ (printable (field_of tvInfo "input") = true ->
          fst (updateStatusDisplay tvInfo w) = Normal tt
          /\ volumeSlider_value (dom w') = "0"
          /\ volumeValue (dom w') = "0%")).
Proof.
  intros Hp. cbv zeta. unfold printable in *.
  split; intros Hv;
    (destruct tvInfo as [| |b|n|s|elems|props]; try discriminate Hv; cbn [get] in Hv;
     unfold field_of in Hp |- *; cbn [get] in Hp |- *; unfold_display;
     [ repeat apply conj; try reflexivity; intros _; reflexivity ..
     | injection Hv as Hv; rewrite ?Hv;
       conversion (lookup_prop "power" props); try discriminate Hp;
       (conversion (lookup_prop "input" props));
       repeat apply conj; try reflexivity; intros Hi; try discriminate Hi;
       repeat apply conj; reflexivity ]).
Qed.

Lemma updateStatusDisplay_volume_witness :
  (let w' := snd (updateStatusDisplay (VObj [("power", VStr "On"); ("muted", VBool false)])
                    connected) in
   volumeStatus (dom w') = "0%"
   /\ volumeSlider_value (dom w') = "50"
   /\ volumeValue (dom w') = "50%")
  /\ (let w' := snd (updateStatusDisplay
                       (VObj [("power", VStr "On"); ("volume", VNum (integer 0))])
                       connected) in
      volumeStatus (dom w') = "0%"
      /\ volumeSlider_value (dom w') = "0"
      /\ volumeValue (dom w') = "0%").
Proof.
  split; cbv zeta.
  - destruct (updateStatusDisplay_volume
                (VObj [("power", VStr "On"); ("muted", VBool false)]) connected eq_refl)
      as [H _].
    destruct (H eq_refl) as (H1 & H2 & H3 & _).
    repeat apply conj;
      [ exact H1 | rewrite H2; vm_compute; reflexivity | rewrite H3; vm_compute; reflexivity ].
  - destruct (updateStatusDisplay_volume
                (VObj [("power", VStr "On"); ("volume", VNum (integer 0))]) connected eq_refl)
      as [_ H].
    destruct (H eq_refl) as (H1 & H2).
    destruct (H2 eq_refl) as (_ & H3 & H4).
    repeat apply conj; [ exact H1 | exact H3 | exact H4 ].
Defined.

End Dispatch.

Section Startup.
Import Controller.

(** ** Application startup *)

(** C6, as stated, fails on the retry: after the probe has answered 200
    the status poll and the apps fetch are in flight; when the status poll
    times out nothing is sent again: the log of requests is unchanged, only
    the apps fetch is left in flight, and the session is still connected. *)
Lemma failed_poll_is_not_retried :
  fetched connected
  = [get_request connected "/health"; get_request connected "/tv/info";
     get_request connected "/tv/apps"]
  /\ pending connected !! 1
     = Some (in_flight (get_request connected "/tv/info") K_refreshStatus)
  /\ transport_failure timed_out = true
  /\ fetched poll_timed_out = fetched connected
  /\ pending poll_timed_out
     = {[ 2 := in_flight (get_request connected "/tv/apps") K_loadApps ]}
  /\ isConnected poll_timed_out = true.
Proof. repeat apply conj; vm_compute; reflexivity. Qed.

Lemma testConnection_resumed_ok (v : Value) (w : World) :
  truthy v = true ->
  testConnection_resumed (Normal v) w
  = (Normal tt,
     with_dom (dom_overlay true)
       (snd (loadApps
          (snd (refreshStatus
             (with_dom (dom_toast (toast_success "Connected to TV"))
                (with_dom (dom_status "Connected" true) (with_isConnected true w)))))))).
Proof.
  intros Hv. unfold testConnection_resumed, updateConnectionStatus, showToast, showLoading.
  run_monad. rewrite Hv. reflexivity.
Qed.

(** C6, amended. On a fresh app startup the session shows "Connecting..."
    and issues one health probe.  If the probe succeeds (an ok response
    whose parsed body is truthy) the state becomes Connected and a status
    poll ([/tv/info]) and an apps-list fetch ([/tv/apps]) are each issued
    exactly once, both in flight together; a transport failure of either is
    not retried and leaves the connection state Connected.  If the probe
    fails at the transport level the state becomes Disconnected and nothing
    more is sent. *)
Theorem startup_probe (item : option string) (d : Dom) :
  let w0 := constructor item d in
  let health := get_request w0 "/health" in
  let info := get_request w0 "/tv/info" in
  let apps := get_request w0 "/tv/apps" in
  (statusText (dom w0) = "Connecting..."
   /\ isConnected w0 = false
   /\ fetched w0 = [health]
   /\ pending w0 = {[ 0 := in_flight health K_testConnection ]})
  /\ (forall r v, ok r = true -> truthy v = true ->
      let w1 := run w0 [EvFetchSettled 0 (FetchResponse r); EvJsonSettled 0 (JsonParsed v)] in
      (isConnected w1 = true
       /\ statusText (dom w1) = "Connected"
       /\ fetched w1 = [health; info; apps]
       /\ pending w1 = {[ 1 := in_flight info K_refreshStatus;
                          2 := in_flight apps K_loadApps ]})
      /\ (forall id o, id = 1 \/ id = 2 -> transport_failure o = true ->
          let w2 := step w1 (EvFetchSettled id o) in
          isConnected w2 = true
          /\ statusText (dom w2) = "Connected"
          /\ fetched w2 = fetched w1
          /\ pending w2 = delete id (pending w1)))
  /\ (forall o, transport_failure o = true ->
      let w1 := step w0 (EvFetchSettled 0 o) in
      isConnected w1 = false
      /\ statusText (dom w1) = "Disconnected"
      /\ fetched w1 = [health]
      /\ pending w1 = ∅).
Proof.
  intros w0 health info apps.
  assert (Hp0 : pending w0 !! 0 = Some (in_flight health K_testConnection))
    by reflexivity.
  repeat apply conj; try reflexivity.
  - intros r v Hok Hv w1.
    assert (w1 = with_dom (dom_overlay true)
       (snd (loadApps
          (snd (refreshStatus
             (with_dom (dom_toast (toast_success "Connected to TV"))
                (with_dom (dom_status "Connected" true)
                   (with_isConnected true (with_net [health] ∅ w0)))))))))
      as E.
    { subst w1. unfold run, fold_left, step.
      rewrite (fetch_settled_ok 0 r _ w0 Hp0 eq_refl Hok).
      erewrite json_settled_parsed; [|reflexivity|reflexivity].
      cbn [p_caller reading_body resume].
      rewrite (testConnection_resumed_ok v _ Hv). reflexivity. }
    clearbody w1. subst w1.
    split.
    + repeat apply conj; reflexivity.
    + intros id o Hid Hf w2.
      destruct Hid as [-> | ->]; subst w2; unfold step;
        (erewrite fetch_settled_failure; [|reflexivity|reflexivity|exact Hf]);
        rewrite resume_null; repeat apply conj; reflexivity.
  - intros o Hf w1. subst w1. unfold step.
    rewrite (fetch_settled_failure 0 o _ w0 Hp0 eq_refl Hf), resume_null.
    repeat apply conj; reflexivity.
Qed.

Lemma startup_probe_witness :
  isConnected connected = true
  /\ fetched connected
     = [get_request started "/health"; get_request started "/tv/info";
        get_request started "/tv/apps"]
  /\ isConnected (step connected (EvFetchSettled 1 timed_out)) = true
  /\ fetched (step connected (EvFetchSettled 1 timed_out)) = fetched connected
  /\ isConnected (step started (EvFetchSettled 0 http_500)) = false.
Proof.
  destruct (startup_probe None page) as (_ & Hok & Hfail).
  destruct (Hok {| status := 200 |} (VObj [("status", VStr "healthy")]) eq_refl eq_refl)
    as ((Hc & _ & Hf & _) & Hpoll).
  destruct (Hpoll 1 timed_out (or_introl eq_refl) eq_refl) as (Hc2 & _ & Hf2 & _).
  destruct (Hfail http_500 eq_refl) as (Hd & _).
  repeat apply conj;
    [ vm_compute in Hc |- *; exact Hc
    | vm_compute in Hf |- *; exact Hf
    | vm_compute in Hc2 |- *; exact Hc2
    | vm_compute in Hf2 |- *; exact Hf2
    | vm_compute in Hd |- *; exact Hd ].
Defined.

End Startup.

(** * Properties of the service worker *)

Section Worker.
Import ServiceWorker.

(** ** Static assets: cache first *)

(** C3, as stated, fails on the population of the cache: an asset that is
    not cached is fetched and returned, but no entry is written for it, so
    the same request goes to the network again. *)
Lemma fetched_asset_is_not_cached :
  isApi icon = false
  /\ caches_match (caches installed) icon = None
  /\ fst (on_fetch icon (online (url icon)) installed) = Respond (served "/icon-192.png")
  /\ caches_match (caches (snd (on_fetch icon (online (url icon)) installed))) icon = None
  /\ fetched (run installed [Fetch icon (online (url icon)); Fetch icon (online (url icon))])
     = fetched installed ++ [icon; icon].
Proof. repeat apply conj; vm_compute; reflexivity. Qed.

(** C3, amended. For every static-asset request, the interceptor returns
    the cached entry when one is present, without any network fetch;
    otherwise it performs exactly one network fetch and returns its result to
    the caller (a network error if the fetch fails).  The cache is left
    unchanged in both cases. *)
Theorem static_asset_cache_first (request : Request) (net : FetchOutcome) (st : State) :
  isApi request = false ->
  caches (snd (on_fetch request net st)) = caches st
  /\ match caches_match (caches st) request with
     | Some response =>
         fst (on_fetch request net st) = Respond response
         /\ fetched (snd (on_fetch request net st)) = fetched st
     | None =>
         fst (on_fetch request net st)
         = match net with
           | FetchResponse r => Respond r
           | FetchRejected _ => NetworkError
           end
         /\ fetched (snd (on_fetch request net st)) = fetched st ++ [request]
     end.
Proof.
  intros Hs. unfold on_fetch. rewrite Hs.
  destruct (caches_match (caches st) request) as [response|].
  - repeat apply conj; reflexivity.
  - destruct net; repeat apply conj; reflexivity.
Qed.

Lemma static_asset_cache_first_witness :
  isApi stylesheet = false
  /\ fst (on_fetch stylesheet unreachable installed) = Respond (served "/styles.css")
  /\ fetched (snd (on_fetch stylesheet unreachable installed)) = fetched installed
  /\ fetched (snd (on_fetch icon (online (url icon)) installed)) = fetched installed ++ [icon]
  /\ caches (snd (on_fetch icon (online (url icon)) installed)) = caches installed.
Proof.
  destruct (static_asset_cache_first stylesheet unreachable installed eq_refl) as [_ H1].
  destruct (static_asset_cache_first icon (online (url icon)) installed eq_refl) as [H2 H3].
  assert (caches_match (caches installed) stylesheet = Some (served "/styles.css")) as E1
    by (vm_compute; reflexivity).
  assert (caches_match (caches installed) icon = None) as E2 by (vm_compute; reflexivity).
  rewrite E1 in H1. rewrite E2 in H3.
  repeat apply conj;
    [ reflexivity | exact (proj1 H1) | exact (proj2 H1) | exact (proj2 H3) | exact H2 ].
Defined.

(** ** Control plane: network first *)

(** C4. For every control-plane request (reads included), the network
    call is attempted first, once; if it fails (the fetch rejects) and a
    cached response exists for that exact request, that cached response is
    returned, and if none exists the failure propagates to the caller as a
    network error.  A response that does arrive is returned as it is. *)
Theorem control_plane_network_first (request : Request) (net : FetchOutcome) (st : State) :
  isApi request = true ->
  fetched (snd (on_fetch request net st)) = fetched st ++ [request]
  /\ caches (snd (on_fetch request net st)) = caches st
  /\ fst (on_fetch request net st)
     = match net with
       | FetchResponse r => Respond r
       | FetchRejected _ =>
           match caches_match (caches st) request with
           | Some cached => Respond cached
           | None => NetworkError
           end
       end.
Proof.
  intros Ha. unfold on_fetch. rewrite Ha.
  destruct net as [r|e]; repeat apply conj; reflexivity.
Qed.

Lemma control_plane_network_first_witness :
  isApi tv_info = true
  /\ fst (on_fetch tv_info unreachable seeded) = Respond stale_info
  /\ fetched (snd (on_fetch tv_info unreachable seeded)) = [tv_info]
  /\ fst (on_fetch tv_info unreachable installed) = NetworkError.
Proof.
  destruct (control_plane_network_first tv_info unreachable seeded eq_refl) as (H1 & _ & H2).
  destruct (control_plane_network_first tv_info unreachable installed eq_refl) as (_ & _ & H3).
  repeat apply conj;
    [ reflexivity
    | rewrite H2; vm_compute; reflexivity
    | exact H1
    | rewrite H3; vm_compute; reflexivity ].
Defined.


(** ** What the caches hold *)

Lemma fetch_all_keys (net : Url -> FetchOutcome) (urls : list Url)
    (entries : list (Url * Response)) :
  fetch_all net urls = Some entries -> map fst entries = urls.
Proof.
  revert entries. induction urls as [|u urls IH]; intros entries H; simpl in H.
  - injection H as <-. reflexivity.
  - destruct (net u) as [r|e]; [|discriminate].
    destruct (cacheable r); [|discriminate].
    destruct (fetch_all net urls) as [l|]; [|discriminate].
    injection H as <-. simpl. f_equal. apply IH. reflexivity.
Qed.

Lemma put_all_keys (P : Url -> Prop) (entries : list (Url * Response))
    (c : gmap Url Response) :
  (forall k, is_Some (c !! k) -> P k) ->
  Forall P (map fst entries) ->
  forall k, is_Some (put_all entries c !! k) -> P k.
Proof.
  revert c. induction entries as [|[u r] entries IH]; intros c Hc He k; simpl.
  - apply Hc.
  - inversion He as [|? ? Hu He']; subst.
    apply IH; [|exact He'].
    intros k' Hk'. simpl in Hk'.
    destruct (decide (u = k')) as [<-|Hne]; [exact Hu|].
    rewrite lookup_insert_ne in Hk' by exact Hne. apply Hc, Hk'.
Qed.

Lemma only_static_get (o : string) (cs : CacheStorage) (name : string)
    (c : gmap Url Response) :
  only_static o cs -> caches_get cs name = Some c ->
  forall k, is_Some (c !! k) -> In k (static_urls o).
Proof.
  induction 1 as [|[n c0] cs Hc Hcs IH]; simpl; [discriminate|].
  destruct (String.eqb n name); [|exact IH].
  intros E. injection E as <-. exact Hc.
Qed.

Lemma only_static_set (o : string) (cs : CacheStorage) (name : string)
    (c : gmap Url Response) :
  only_static o cs -> (forall k, is_Some (c !! k) -> In k (static_urls o)) ->
  only_static o (caches_set cs name c).
Proof.
  intros Hcs Hc. induction Hcs as [|[n c0] cs Hc0 Hcs IH]; simpl.
  - constructor; [exact Hc|constructor].
  - destruct (String.eqb n name); constructor; assumption.
Qed.

Lemma only_static_open (o : string) (cs : CacheStorage) (name : string) :
  only_static o cs -> only_static o (caches_open cs name).
Proof.
  intros Hcs. unfold caches_open. destruct (caches_get cs name); [exact Hcs|].
  apply Forall_app. split; [exact Hcs|].
  constructor; [|constructor].
  intros k [r Hk]. simpl in Hk. rewrite lookup_empty in Hk. discriminate.
Qed.

Lemma only_static_delete (o : string) (cs : CacheStorage) (name : string) :
  only_static o cs -> only_static o (caches_delete cs name).
Proof.
  intros Hcs. unfold caches_delete, only_static.
  apply List.Forall_forall. intros nc Hin. apply filter_In in Hin as [Hin _].
  unfold only_static in Hcs. rewrite List.Forall_forall in Hcs. exact (Hcs nc Hin).
Qed.

Lemma on_install_static (net : Url -> FetchOutcome) (st : State) :
  only_static (location_origin st) (caches st) ->
  only_static (location_origin st) (caches (on_install net st)).
Proof.
  intros Hst. unfold on_install.
  pose proof (only_static_open _ _ CACHE_NAME Hst) as Hopen.
  destruct (caches_get (caches_open (caches st) CACHE_NAME) CACHE_NAME) as [cache|] eqn:Hget;
    [|exact Hopen].
  unfold addAll.
  destruct (fetch_all net _) as [entries|] eqn:Hall; [|exact Hopen].
  cbn [caches with_caches with_fetched].
  apply only_static_set; [exact Hopen|].
  apply put_all_keys.
  - exact (only_static_get _ _ _ _ Hopen Hget).
  - rewrite (fetch_all_keys _ _ _ Hall). apply List.Forall_forall. auto.
Qed.

Lemma on_activate_static (st : State) :
  only_static (location_origin st) (caches st) ->
  only_static (location_origin st) (caches (on_activate st)).
Proof.
  intros Hst. unfold on_activate. cbn [caches with_caches].
  generalize (caches_keys (caches st)). revert Hst. generalize (caches st).
  intros cs Hcs names. revert cs Hcs.
  induction names as [|n names IH]; intros cs Hcs; simpl; [exact Hcs|].
  apply IH. destruct (negb (String.eqb n CACHE_NAME)); [|exact Hcs].
  apply only_static_delete, Hcs.
Qed.

Lemma step_origin (st : State) (ev : Event) :
  location_origin (step st ev) = location_origin st.
Proof.
  destruct ev as [net| |request net| | |]; try reflexivity.
  - unfold step, on_install.
    destruct (caches_get _ _); [|reflexivity].
    destruct (addAll _ _ _); reflexivity.
  - unfold step, on_fetch. destruct (isApi request).
    + destruct (net_fetch net) as [[?|]|?]; reflexivity.
    + destruct (caches_match _ _); reflexivity.
Qed.

Lemma on_fetch_caches (request : Request) (net : FetchOutcome) (st : State) :
  caches (snd (on_fetch request net st)) = caches st.
Proof.
  unfold on_fetch. destruct (isApi request).
  - destruct (net_fetch net) as [[?|]|?]; reflexivity.
  - destruct (caches_match _ _); reflexivity.
Qed.

Lemma step_static (st : State) (ev : Event) :
  only_static (location_origin st) (caches st) ->
  only_static (location_origin st) (caches (step st ev)).
Proof.
  intros Hst. destruct ev as [net| |request net| | |]; try exact Hst.
  - apply on_install_static, Hst.
  - apply on_activate_static, Hst.
  - unfold step. rewrite on_fetch_caches. exact Hst.
Qed.

Lemma run_static (evs : list Event) (st : State) :
  only_static (location_origin st) (caches st) ->
  only_static (location_origin st) (caches (run st evs)).
Proof.
  revert st. induction evs as [|ev evs IH]; intros st Hst; [exact Hst|].
  simpl. rewrite <- (step_origin st ev). apply IH.
  rewrite step_origin. apply step_static, Hst.
Qed.

Lemma caches_match_not_get (cs : CacheStorage) (request : Request) :
  String.eqb (method request) "GET" = false -> caches_match cs request = None.
Proof.
  intros Hm. induction cs as [|[n c] cs IH]; [reflexivity|].
  simpl. unfold cache_match. rewrite Hm. exact IH.
Qed.

Lemma command_not_static (o : string) (request : Request) :
  is_command request = true -> ~ In (url request) (static_urls o).
Proof.
  unfold is_command. intros Hc Hin.
  apply andb_prop in Hc as [_ Hp].
  unfold static_urls in Hin. apply in_map_iff in Hin as (p & Hu & Hp').
  rewrite <- Hu in Hp. cbn [pathname resolve] in Hp.
  simpl in Hp'.
  destruct Hp' as [<-|[<-|[<-|[<-|[<-|[]]]]]]; discriminate Hp.
Qed.

(** C8. For every command-issuing request, in every state the worker can
    reach from an origin without caches, whatever the events, no cache of
    any name holds an entry for it and [caches.match] does not find it:
    every entry of every cache is keyed by one of the URLs of
    [urlsToCache]. *)
Theorem commands_never_cached (o : string) (evs : list Event) (request : Request) :
  is_command request = true ->
  let st := run (fresh o) evs in
  caches_match (caches st) request = None
  /\ (forall name c, In (name, c) (caches st) -> c !! url request = None)
  /\ (forall name c k, In (name, c) (caches st) -> is_Some (c !! k) -> In k (static_urls o)).
Proof.
  intros Hc st.
  assert (only_static o (caches st)) as Hst.
  { apply (run_static evs (fresh o)). constructor. }
  assert (forall name c k, In (name, c) (caches st) -> is_Some (c !! k) -> In k (static_urls o))
    as Hkeys.
  { intros name c k Hin. unfold only_static in Hst.
    rewrite List.Forall_forall in Hst. exact (Hst (name, c) Hin k). }
  repeat apply conj.
  - apply caches_match_not_get.
    apply andb_prop in Hc as [Hm _]. apply String.eqb_eq in Hm. rewrite Hm. reflexivity.
  - intros name c Hin.
    destruct (c !! url request) as [r|] eqn:Hl; [|reflexivity].
    exfalso. apply (command_not_static o request Hc).
    apply (Hkeys name c _ Hin). rewrite Hl. eauto.
  - exact Hkeys.
Qed.

Lemma commands_never_cached_witness :
  is_command tv_power = true
  /\ caches_match
       (caches (run (fresh site) [Install online; Activate; Fetch tv_power (online (url tv_power))]))
       tv_power = None.
Proof.
  split; [reflexivity|].
  exact (proj1 (commands_never_cached site
                  [Install online; Activate; Fetch tv_power (online (url tv_power))]
                  tv_power eq_refl)).
Defined.

(** On its own caches the worker therefore has nothing to fall back on for
    a control-plane request: when the network fails, the page gets a
    network error. *)
Lemma api_not_static (o : string) (request : Request) :
  isApi request = true -> ~ In (url request) (static_urls o).
Proof.
  unfold isApi. intros Ha Hin.
  unfold static_urls in Hin. apply in_map_iff in Hin as (p & Hu & Hp).
  rewrite <- Hu in Ha. cbn [pathname resolve] in Ha.
  simpl in Hp.
  destruct Hp as [<-|[<-|[<-|[<-|[<-|[]]]]]]; discriminate Ha.
Qed.

Lemma caches_match_static (o : string) (cs : CacheStorage) (request : Request) :
  only_static o cs -> ~ In (url request) (static_urls o) ->
  caches_match cs request = None.
Proof.
  intros Hcs Hn. induction Hcs as [|[n c] cs Hc Hcs IH]; [reflexivity|].
  simpl. unfold cache_match.
  destruct (String.eqb (method request) "GET"); [|exact IH].
  destruct (c !! url request) as [r|] eqn:Hl; [|exact IH].
  exfalso. apply Hn, Hc. simpl. rewrite Hl. eauto.
Qed.

Lemma control_plane_fallback_is_empty (o : string) (evs : list Event)
    (request : Request) (e : Error) :
  isApi request = true ->
  fst (on_fetch request (FetchRejected e) (run (fresh o) evs)) = NetworkError.
Proof.
  intros Ha. unfold on_fetch. rewrite Ha. cbn [net_fetch fst with_fetched caches].
  rewrite (caches_match_static o).
  - reflexivity.
  - apply (run_static evs (fresh o)). constructor.
  - apply api_not_static, Ha.
Qed.

End Worker.

(** * Frame properties of the event loop *)

Section Frames.
Import Controller.

Section Keeps.
Context (R : World -> World -> Prop) (HR : Frame R).

Lemma keeps_ret {A} (a : A) : keeps R (ret a).
Proof. intros w. apply (frame_refl R HR). Qed.

Lemma keeps_throw {A} (e : Error) : keeps R (throw (A := A) e).
Proof. intros w. apply (frame_refl R HR). Qed.

Lemma keeps_await {A} (c : Completion A) : keeps R (await c).
Proof. intros w. apply (frame_refl R HR). Qed.

Lemma keeps_read {A} (f : World -> A) : keeps R (read f).
Proof. intros w. apply (frame_refl R HR). Qed.

Lemma keeps_modify (f : World -> World) : (forall w, R w (f w)) -> keeps R (modify f).
Proof. intros Hf w. apply Hf. Qed.

Lemma keeps_bind {A B} (m : M A) (k : A -> M B) :
  keeps R m -> (forall a, keeps R (k a)) -> keeps R (bind m k).
Proof.
  intros Hm Hk w. unfold bind. specialize (Hm w).
  destruct (m w) as [[a|e] w']; cbn [snd] in *; [|exact Hm].
  eapply (frame_trans R HR); [exact Hm|apply Hk].
Qed.

Lemma keeps_try_catch {A} (body : M A) (handler : Error -> M A) :
  keeps R body -> (forall e, keeps R (handler e)) -> keeps R (try_catch body handler).
Proof.
  intros Hm Hk w. unfold try_catch. specialize (Hm w).
  destruct (body w) as [[a|e] w']; cbn [snd] in *; [exact Hm|].
  eapply (frame_trans R HR); [exact Hm|apply Hk].
Qed.

Lemma keeps_try_finally {A} (body : M A) (fin : M unit) :
  keeps R body -> keeps R fin -> keeps R (try_finally body fin).
Proof.
  intros Hm Hf w. unfold try_finally. specialize (Hm w).
  destruct (body w) as [c w']; cbn [snd] in *.
  specialize (Hf w'). destruct (fin w') as [[[]|e] w'']; cbn [snd] in *;
    eapply (frame_trans R HR); eassumption.
Qed.

Lemma keeps_fire_and_forget (m : M unit) : keeps R m -> keeps R (fire_and_forget m).
Proof. intros Hm w. apply Hm. Qed.

Lemma keeps_if {A} (b : bool) (m1 m2 : M A) :
  keeps R m1 -> keeps R m2 -> keeps R (if b then m1 else m2).
Proof. destruct b; auto. Qed.

Ltac frame :=
  repeat match goal with
         | |- forall _, _ => intro
         | |- keeps _ (ret _) => apply keeps_ret
         | |- keeps _ (throw _) => apply keeps_throw
         | |- keeps _ (await _) => apply keeps_await
         | |- keeps _ (read _) => apply keeps_read
         | |- keeps _ (bind _ _) => apply keeps_bind
         | |- keeps _ (try_catch _ _) => apply keeps_try_catch
         | |- keeps _ (try_finally _ _) => apply keeps_try_finally
         | |- keeps _ (fire_and_forget _) => apply keeps_fire_and_forget
         | |- keeps _ (if _ then _ else _) => apply keeps_if
         | |- keeps _ (makeApiRequest _ _ _ _) => apply (frame_request R HR)
         | |- keeps _ (modify _) =>
             apply keeps_modify; intro;
             first [ apply (frame_console R HR)
                   | apply (frame_dom R HR); intro; split; reflexivity
                   | apply (frame_label R HR); discriminate ]
         end.

Lemma keeps_showToast (message type : string) : keeps R (showToast message type).
Proof. unfold showToast. frame. Qed.

Lemma keeps_showLoading (show : bool) : keeps R (showLoading show).
Proof. unfold showLoading. frame. Qed.

Lemma keeps_console_error (label : string) (e : Error) : keeps R (console_error label e).
Proof. unfold console_error. frame. Qed.

Lemma keeps_makeApiRequest_catch (e : Error) : keeps R (makeApiRequest_catch e).
Proof.
  unfold makeApiRequest_catch. frame;
    [apply keeps_console_error | apply keeps_showToast].
Qed.

Lemma keeps_makeApiRequest_fetched (o : FetchOutcome) : keeps R (makeApiRequest_fetched o).
Proof.
  unfold makeApiRequest_fetched, await_fetch. frame; try apply keeps_makeApiRequest_catch.
  destruct o; frame.
Qed.

Lemma keeps_makeApiRequest_parsed (j : JsonOutcome) : keeps R (makeApiRequest_parsed j).
Proof.
  unfold makeApiRequest_parsed, await_json. frame; try apply keeps_makeApiRequest_catch.
  destruct j; frame.
Qed.

Lemma keeps_refreshStatus : keeps R refreshStatus.
Proof. unfold refreshStatus. frame. Qed.

Lemma keeps_loadApps : keeps R loadApps.
Proof. unfold loadApps. frame. Qed.

Lemma keeps_testConnection : keeps R testConnection.
Proof.
  unfold testConnection, updateConnectionStatus. frame. apply keeps_showLoading.
Qed.

Lemma keeps_on_offline : keeps R on_offline.
Proof. unfold on_offline, updateConnectionStatus. frame. apply keeps_showToast. Qed.

Lemma keeps_updateStatusDisplay (tvInfo : Value) : keeps R (updateStatusDisplay tvInfo).
Proof. unfold updateStatusDisplay. frame. Qed.

Lemma keeps_forEach {A} (f : A -> M unit) (l : list A) :
  (forall x, keeps R (f x)) -> keeps R (forEach f l).
Proof. intros Hf. induction l as [|x l IH]; cbn [forEach]; frame; auto. Qed.

Lemma keeps_append_card (appName : Value) : keeps R (append_card appName).
Proof. unfold append_card. frame. Qed.

Lemma keeps_loadApps_resumed (c : Completion Value) : keeps R (loadApps_resumed c).
Proof.
  unfold loadApps_resumed. frame.
  match goal with |- keeps R (match ?a with _ => _ end) => destruct a end; frame.
  apply keeps_forEach, keeps_append_card.
Qed.

Lemma keeps_dispatch (i : Intent) : keeps R (dispatch i).
Proof.
  destruct i; unfold dispatch, setPower, setVolume, setMute, setInput, launchApp,
    sendRemoteKey, not_connected; frame;
    first [apply keeps_showToast | apply keeps_showLoading].
Qed.

Lemma keeps_dispatcher_resumed (k : Caller) (c : Completion Value) :
  is_dispatcher k = true -> keeps R (resume k c).
Proof.
  destruct k; try discriminate; intros _; cbn [resume];
    unfold setPower_resumed, setVolume_resumed, setMute_resumed, setInput_resumed,
      launchApp_resumed, sendRemoteKey_resumed; frame;
    first [apply keeps_showToast | apply keeps_showLoading | apply keeps_refreshStatus].
Qed.

Lemma keeps_refreshAllData : keeps R refreshAllData.
Proof.
  unfold refreshAllData. frame; [apply keeps_refreshStatus | apply keeps_showToast].
Qed.

Lemma keeps_on_visibilitychange (hidden : bool) : keeps R (on_visibilitychange hidden).
Proof. unfold on_visibilitychange. frame. apply keeps_refreshStatus. Qed.

(** [refreshStatus] resumed, for a relation that allows replacing the
    snapshot. *)
Lemma keeps_refreshStatus_resumed (c : Completion Value) :
  (forall v w, R w (with_tvInfo v w)) -> keeps R (refreshStatus_resumed c).
Proof.
  intros Hv. unfold refreshStatus_resumed. frame;
    first [ apply keeps_modify, Hv | apply keeps_updateStatusDisplay
          | apply keeps_console_error ].
Qed.

(** [testConnection] resumed, for a relation that allows setting the flag
    and the label. *)
Lemma keeps_testConnection_resumed (c : Completion Value) :
  (forall b w, R w (with_isConnected b w)) ->
  (forall text on w, R w (with_dom (dom_status text on) w)) ->
  keeps R (testConnection_resumed c).
Proof.
  intros Hb Hs. unfold testConnection_resumed, updateConnectionStatus. frame;
    first [ apply keeps_modify; intro; first [apply Hb | apply Hs]
          | apply keeps_showToast | apply keeps_showLoading
          | apply keeps_refreshStatus | apply keeps_loadApps ].
Qed.

(** The event loop keeps [R] at every event but the settlements awaited by
    the callers of [kind]. *)
Context (kind : Caller -> bool).
Hypothesis R_probe : kind K_testConnection = false ->
  forall c, keeps R (testConnection_resumed c).
Hypothesis R_poll : kind K_refreshStatus = false ->
  forall c, keeps R (refreshStatus_resumed c).

Lemma keeps_resume (k : Caller) (c : Completion Value) :
  kind k = false -> keeps R (resume k c).
Proof.
  intros Hk.
  destruct k;
    [ apply R_probe, Hk | apply R_poll, Hk | apply keeps_loadApps_resumed
    | apply keeps_dispatcher_resumed; reflexivity .. ].
Qed.

Lemma keeps_step (w : World) (ev : Event) :
  settles_for kind w ev = false -> R w (step w ev).
Proof.
  destruct ev as [i| | | | | |hidden|id o|id j]; cbn [settles_for step]; intros Hk.
  - apply keeps_dispatch.
  - apply keeps_refreshStatus.
  - apply keeps_testConnection.
  - apply keeps_refreshAllData.
  - apply keeps_showToast.
  - apply keeps_on_offline.
  - apply keeps_on_visibilitychange.
  - unfold fetch_settled.
    destruct (pending w !! id) as [p|] eqn:Hp; [|apply (frame_refl R HR)].
    destruct (p_stage p); [|apply (frame_refl R HR)].
    pose proof (keeps_makeApiRequest_fetched o (drop_pending id w)) as Hm.
    destruct (makeApiRequest_fetched o (drop_pending id w)) as [[[v|]|e] w'] eqn:Hr;
      cbn [snd] in Hm.
    + eapply (frame_trans R HR); [apply (frame_drop R HR)|].
      eapply (frame_trans R HR); [exact Hm|]. apply (keeps_resume _ _ Hk).
    + assert (w' = drop_pending id w) as ->.
      { destruct o as [r|e]; [|discriminate Hr].
        unfold makeApiRequest_fetched, await_fetch, try_catch, bind, ret, throw in Hr.
        destruct (negb (ok r)); [discriminate Hr|]. injection Hr as <-. reflexivity. }
      apply (frame_park R HR id p w Hp).
    + eapply (frame_trans R HR); [apply (frame_drop R HR)|].
      eapply (frame_trans R HR); [exact Hm|]. apply (keeps_resume _ _ Hk).
  - unfold json_settled.
    destruct (pending w !! id) as [p|] eqn:Hp; [|apply (frame_refl R HR)].
    destruct (p_stage p); [apply (frame_refl R HR)|].
    pose proof (keeps_makeApiRequest_parsed j (drop_pending id w)) as Hm.
    destruct (makeApiRequest_parsed j (drop_pending id w)) as [c w'].
    cbn [snd] in Hm.
    eapply (frame_trans R HR); [apply (frame_drop R HR)|].
    eapply (frame_trans R HR); [exact Hm|]. apply (keeps_resume _ _ Hk).
Qed.

End Keeps.

Lemma settles_for_nobody (w : World) (ev : Event) :
  settles_for (fun _ => false) w ev = false.
Proof. destruct ev; cbn [settles_for]; try reflexivity; destruct (pending w !! id); reflexivity. Qed.

(** ** The connection flag *)

Lemma flag_frame : Frame (fun w w' => isConnected w' = isConnected w).
Proof.
  split; try (repeat intro; reflexivity).
  intros w1 w2 w3 H12 H23. rewrite H23. exact H12.
Qed.

(** X1. The connection flag is written by the health probe only: every
    event other than the settling of a request awaited by [testConnection]
    (commands, polls, refreshes, network and visibility signals, and the
    settling of any other request, whatever its outcome) leaves
    [isConnected] as it was. *)
Theorem isConnected_written_by_probe_only (w : World) (ev : Event) :
  settles_for is_testConnection w ev = false ->
  isConnected (step w ev) = isConnected w.
Proof.
  apply (keeps_step _ flag_frame is_testConnection).
  - discriminate.
  - intros _ c. apply (keeps_refreshStatus_resumed _ flag_frame). reflexivity.
Qed.

Lemma isConnected_written_by_probe_only_witness :
  settles_for is_testConnection connected (EvFetchSettled 1 http_500) = false
  /\ isConnected (step connected (EvFetchSettled 1 http_500)) = isConnected connected.
Proof.
  split; [vm_compute; reflexivity|].
  apply (isConnected_written_by_probe_only connected (EvFetchSettled 1 http_500)).
  vm_compute. reflexivity.
Defined.


(** ** The status snapshot *)

Lemma snapshot_frame : Frame (fun w w' => tvInfo w' = tvInfo w).
Proof.
  split; try (repeat intro; reflexivity).
  intros w1 w2 w3 H12 H23. rewrite H23. exact H12.
Qed.

(** X3. The status snapshot [tvInfo] is written by a status poll only:
    every event other than the settling of a request awaited by
    [refreshStatus] leaves it as it was.  In particular a failed health
    probe, which disconnects the session, keeps the last snapshot. *)
Theorem tvInfo_written_by_poll_only (w : World) (ev : Event) :
  settles_for is_refreshStatus w ev = false ->
  tvInfo (step w ev) = tvInfo w.
Proof.
  apply (keeps_step _ snapshot_frame is_refreshStatus).
  - intros _ c. apply (keeps_testConnection_resumed _ snapshot_frame); reflexivity.
  - discriminate.
Qed.

Lemma tvInfo_written_by_poll_only_witness :
  isConnected (run polled [EvTestConnection; EvFetchSettled 3 timed_out]) = false
  /\ tvInfo (run polled [EvTestConnection; EvFetchSettled 3 timed_out]) = tvInfo polled.
Proof.
  split; [vm_compute; reflexivity|].
  cbn [run fold_left].
  rewrite (tvInfo_written_by_poll_only (step polled EvTestConnection)
             (EvFetchSettled 3 timed_out)) by (vm_compute; reflexivity).
  apply (tvInfo_written_by_poll_only polled EvTestConnection). reflexivity.
Defined.


(** ** The status label *)

Lemma label_frame : Frame (fun w w' => label_agrees w -> label_agrees w').
Proof.
  split.
  - intros w H. exact H.
  - intros w1 w2 w3 H12 H23 H. auto.
  - intros f w Hf [Hdot Hflag]. destruct (Hf (dom w)) as [Ht Hd].
    unfold label_agrees. cbn [dom with_dom isConnected]. rewrite Ht, Hd. split; assumption.
  - intros text w Hne _. unfold label_agrees. cbn. split; [split|]; intros H; congruence.
  - intros l w H. exact H.
  - intros endpoint method data k w H. exact H.
  - intros id w H. exact H.
  - intros id p w _ H. exact H.
Qed.

Lemma testConnection_resumed_failed (c : Completion Value) (w : World) :
  match c with Normal v => truthy v = false | Abrupt _ => True end ->
  isConnected (snd (testConnection_resumed c w)) = false
  /\ statusText (dom (snd (testConnection_resumed c w))) = "Disconnected"
  /\ statusDot_connected (dom (snd (testConnection_resumed c w))) = false.
Proof.
  intros Hc. destruct c as [v|e];
    unfold testConnection_resumed, updateConnectionStatus, showToast, showLoading;
    run_monad; [rewrite Hc|]; repeat apply conj; reflexivity.
Qed.

Lemma testConnection_resumed_agrees (c : Completion Value) (w : World) :
  label_agrees (snd (testConnection_resumed c w)).
Proof.
  destruct c as [v|e]; [destruct (truthy v) eqn:Hv|].
  - rewrite (testConnection_resumed_ok v w Hv). cbn [snd].
    apply (frame_dom _ label_frame); [intro; split; reflexivity|].
    apply (keeps_loadApps _ label_frame).
    apply (keeps_refreshStatus _ label_frame).
    unfold label_agrees. cbn. repeat split.
  - destruct (testConnection_resumed_failed (Normal v) w Hv) as (Hf & Ht & Hd).
    unfold label_agrees. rewrite Ht, Hd. split; [split|]; intros H; congruence.
  - destruct (testConnection_resumed_failed (Abrupt e) w I) as (Hf & Ht & Hd).
    unfold label_agrees. rewrite Ht, Hd. split; [split|]; intros H; congruence.
Qed.

Lemma step_agrees (w : World) (ev : Event) :
  label_agrees w -> label_agrees (step w ev).
Proof.
  apply (keeps_step _ label_frame (fun _ => false)).
  - intros _ c w0 _. apply testConnection_resumed_agrees.
  - intros _ c. apply (keeps_refreshStatus_resumed _ label_frame). intros ? ? H. exact H.
  - apply settles_for_nobody.
Qed.

Lemma constructor_agrees (item : option string) (d : Dom) :
  label_agrees (constructor item d).
Proof. unfold label_agrees. cbn. split; [split|]; intros H; congruence. Qed.

Lemma page_step_agrees (trim : string -> string) (pg : Page) (ev : PageEvent) :
  label_agrees (world pg) -> label_agrees (world (page_step trim pg ev)).
Proof.
  intros H. destruct ev; cbn [page_step world].
  - apply step_agrees, H.
  - exact H.
  - exact H.
  - exact H.
  - apply constructor_agrees.
Qed.

(** X2. Whatever the page goes through after it is loaded (events of the
    controller, edits and saves of the settings, reloads), the dot is on
    exactly when the label reads "Connected", and the label never reads
    "Connected" while [isConnected] is false. *)
Theorem connected_label_implies_flag (trim : string -> string) (item : option string)
    (d : Dom) (evs : list PageEvent) :
  let w := world (page_run trim (load item d) evs) in
  (statusDot_connected (dom w) = true <-> statusText (dom w) = "Connected")
  /\ (statusText (dom w) = "Connected" -> isConnected w = true).
Proof.
  intros w. change (label_agrees w). subst w. unfold page_run.
  assert (label_agrees (world (load item d))) as H0 by apply constructor_agrees.
  revert H0. generalize (load item d). induction evs as [|ev evs IH]; intros pg H0.
  - exact H0.
  - simpl. apply IH. apply page_step_agrees, H0.
Qed.

Lemma connected_label_implies_flag_witness :
  statusText (dom connected) = "Connected" /\ isConnected connected = true.
Proof.
  split; [vm_compute; reflexivity|].
  destruct (connected_label_implies_flag trim_ascii None page
              [PgEvent (EvFetchSettled 0 http_200); PgEvent (EvJsonSettled 0 healthy)])
    as [_ H].
  apply H. vm_compute. reflexivity.
Defined.


End Frames.

Section Display.
Import Controller.

(** ** The loading overlay *)

Lemma finally_hides_overlay {A} (body : M A) (w : World) :
  loadingOverlay_hidden (dom (snd (try_finally body (showLoading false) w))) = true.
Proof.
  unfold try_finally, showLoading, modify. destruct (body w) as [c w']. reflexivity.
Qed.

Lemma resume_hides_overlay (k : Caller) (c : Completion Value) (w : World) :
  shows_overlay k = true ->
  loadingOverlay_hidden (dom (snd (resume k c w))) = true.
Proof.
  destruct k; try discriminate; intros _; apply finally_hides_overlay.
Qed.

(** X5. The loading overlay does not stay up: when a request of a method
    that shows it ([testConnection], [setPower], [setInput], [launchApp])
    settles for good (a transport failure, or the end of the reading of the
    body, parsed or not), the overlay is hidden, whatever else is still in
    flight. *)
Theorem overlay_hidden_when_request_settles (w : World) (id : nat) (p : Pending) :
  pending w !! id = Some p ->
  shows_overlay (p_caller p) = true ->
  (p_stage p = AwaitFetch ->
   forall o, transport_failure o = true ->
     loadingOverlay_hidden (dom (step w (EvFetchSettled id o))) = true)
  /\ (p_stage p = AwaitJson ->
      forall j, loadingOverlay_hidden (dom (step w (EvJsonSettled id j))) = true).
Proof.
  intros Hp Hk. split; intros Hs.
  - intros o Hf. cbn [step].
    rewrite (fetch_settled_failure id o p w Hp Hs Hf).
    apply resume_hides_overlay, Hk.
  - intros j. cbn [step]. unfold json_settled. rewrite Hp, Hs.
    destruct (makeApiRequest_parsed j (drop_pending id w)) as [c w'].
    apply resume_hides_overlay, Hk.
Qed.

Lemma overlay_hidden_when_request_settles_witness :
  loadingOverlay_hidden (dom power_in_flight) = false
  /\ loadingOverlay_hidden (dom (step power_in_flight (EvFetchSettled 3 timed_out))) = true.
Proof.
  split; [vm_compute; reflexivity|].
  assert (pending power_in_flight !! 3
          = Some (in_flight (request_of connected (Power (PStr "on")))
                    (K_setPower (VStr "on")))) as Hp by (vm_compute; reflexivity).
  destruct (overlay_hidden_when_request_settles power_in_flight 3 _ Hp eq_refl) as [H _].
  exact (H eq_refl timed_out eq_refl).
Defined.


(** ** The status display *)

Lemma updateStatusDisplay_nullish (tvInfo : Value) (w : World) :
  nullish tvInfo = true ->
  exists e, updateStatusDisplay tvInfo w = (Abrupt e, w).
Proof. destruct tvInfo; try discriminate; intros _; eexists; reflexivity. Qed.

Lemma truthy_not_nullish (v : Value) : truthy v = true -> nullish v = false.
Proof. destruct v; try discriminate; reflexivity. Qed.

(** [updateStatusDisplay] completes exactly on the snapshots whose three
    converted fields convert. *)
Lemma updateStatusDisplay_completes (tvInfo : Value) (w : World) :
  nullish tvInfo = false ->
  fst (updateStatusDisplay tvInfo w)
  = if displayable tvInfo then Normal tt else Abrupt cannot_convert.
Proof.
  intros Hn. destruct tvInfo; try discriminate Hn; clear Hn; unfold displayable, printable;
    unfold_display; try reflexivity.
  conversion (lookup_prop "power" props); [| |reflexivity];
    (conversion (lookup_prop "volume" props); [| |reflexivity]);
    (conversion (lookup_prop "input" props); [| |reflexivity]);
    destruct (is_defined (lookup_prop "volume" props)); reflexivity.
Qed.

Ltac display_written :=
  eexists; split; [reflexivity | repeat apply conj; reflexivity].

(** It writes the lines of the status display and nothing else. *)
Lemma updateStatusDisplay_writes_display (tvInfo : Value) (w : World) :
  exists d, snd (updateStatusDisplay tvInfo w) = with_dom (fun _ => d) w
            /\ same_but_display (dom w) d.
Proof.
  destruct w as [u b t0 d c f p].
  destruct tvInfo; unfold_display; try display_written.
  conversion (lookup_prop "power" props); try display_written;
    (conversion (lookup_prop "volume" props); try display_written);
    (conversion (lookup_prop "input" props); try display_written);
    destruct (is_defined (lookup_prop "volume" props)); display_written.
Qed.

Lemma updateStatusDisplay_dom_only (tvInfo : Value) (w : World) :
  snd (updateStatusDisplay tvInfo w)
  = with_dom (fun _ => dom (snd (updateStatusDisplay tvInfo w))) w.
Proof.
  destruct (updateStatusDisplay_writes_display tvInfo w) as (d & E & _).
  rewrite E. reflexivity.
Qed.

(** A snapshot that converts and has a [volume] field writes every line:
    what it leaves does not depend on what the lines read before. *)
Lemma updateStatusDisplay_over_dom (tvInfo : Value) (w w0 : World) :
  nullish tvInfo = false -> displayable tvInfo = true ->
  is_defined (field_of tvInfo "volume") = true ->
  same_but_display (dom w) (dom w0) ->
  dom (snd (updateStatusDisplay tvInfo w0)) = dom (snd (updateStatusDisplay tvInfo w)).
Proof.
  intros Hn Hd Hv Hs.
  destruct w as [u b t d c f p]. destruct w0 as [u0 b0 t0 d0 c0 f0 p0].
  cbn [dom] in Hs. destruct d, d0. unfold same_but_display in Hs. cbn in Hs.
  destruct Hs as (? & ? & ? & ? & ? & ?). subst.
  destruct tvInfo; try discriminate Hn; try discriminate Hv; clear Hn;
    unfold displayable, printable, field_of in Hd, Hv; cbn [get] in Hd, Hv;
    unfold_display.
  conversion (lookup_prop "power" props); try discriminate Hd;
    (conversion (lookup_prop "volume" props); try discriminate Hd);
    (conversion (lookup_prop "input" props); try discriminate Hd);
    rewrite Hv; reflexivity.
Qed.

(** [refreshStatus] resumed on a truthy body: the snapshot is stored, then
    displayed, and a throw of the display is logged. *)
Lemma refreshStatus_resumed_truthy (v : Value) (w : World) :
  truthy v = true ->
  refreshStatus_resumed (Normal v) w
  = (Normal tt,
     match updateStatusDisplay v (with_tvInfo v w) with
     | (Normal _, w1) => w1
     | (Abrupt e, w1) =>
         with_console (console w1 ++ [("Failed to refresh status:", e)]) w1
     end).
Proof.
  intros Hv.
  unfold refreshStatus_resumed, try_catch, bind, await, modify, ret, console_error.
  rewrite Hv.
  destruct (updateStatusDisplay v (with_tvInfo v w)) as [[[]|e] w1]; reflexivity.
Qed.

Lemma refreshStatus_resumed_falsy (v : Value) (w : World) :
  truthy v = false -> refreshStatus_resumed (Normal v) w = (Normal tt, w).
Proof.
  intros Hv. unfold refreshStatus_resumed, try_catch, bind, await, modify, ret.
  rewrite Hv. reflexivity.
Qed.

(** What a poll leaves, its body read. *)
Lemma refreshStatus_resumed_state (v : Value) (w : World) :
  truthy v = true ->
  exists d,
    same_but_display (dom w) d
    /\ snd (refreshStatus_resumed (Normal v) w)
       = with_console
           (console w ++ (if displayable v then []
                          else [("Failed to refresh status:", cannot_convert)]))
           (with_dom (fun _ => d) (with_tvInfo v w))
    /\ (displayable v = true ->
        snd (refreshStatus_resumed (Normal v) w)
        = snd (updateStatusDisplay v (with_tvInfo v w))).
Proof.
  intros Hv. rewrite (refreshStatus_resumed_truthy v w Hv). cbn [snd].
  pose proof (updateStatusDisplay_completes v (with_tvInfo v w) (truthy_not_nullish v Hv))
    as Hc.
  destruct (updateStatusDisplay_writes_display v (with_tvInfo v w)) as (d & E & Hs).
  destruct (updateStatusDisplay v (with_tvInfo v w)) as [[[]|e] w1];
    cbn [fst snd] in Hc, E; subst w1; exists d;
    (split; [exact Hs|]); destruct (displayable v); try discriminate Hc.
  - destruct w as [u b t d0 c f p]. split; [|reflexivity]. cbn.
    rewrite app_nil_r. reflexivity.
  - injection Hc as ->. split; [reflexivity|discriminate].
Qed.

(** X6. A status poll never throws to the event loop, whatever JSON the
    server sends, and writes nothing but the snapshot, the lines of the
    status display and the console: no request is sent, no notice shown, and
    the flag is left alone.  A falsy body is ignored.  A truthy body becomes
    the snapshot and is displayed: exactly when its [power], [volume] and
    [input] fields convert to strings the display is written through and
    nothing is logged; otherwise [updateStatusDisplay] throws at the first
    field that does not convert, with the lines above it written, and
    [refreshStatus] logs the error.  [updateStatusDisplay] itself throws on
    [null] and [undefined] before writing anything, and on no other snapshot
    that converts. *)
Theorem poll_never_throws (c : Completion Value) (w : World) :
  let w' := snd (refreshStatus_resumed c w) in
  fst (refreshStatus_resumed c w) = Normal tt
  /\ fetched w' = fetched w
  /\ pending w' = pending w
  /\ isConnected w' = isConnected w
  /\ same_but_display (dom w) (dom w')
  /\ (forall v, c = Normal v ->
       (truthy v = false -> w' = w)
       /\ (truthy v = true ->
           tvInfo w' = v
           /\ console w'
              = console w ++ (if displayable v then []
                              else [("Failed to refresh status:", cannot_convert)])
           /\ (displayable v = true ->
               w' = snd (updateStatusDisplay v (with_tvInfo v w)))))
  /\ (forall tvInfo,
       (nullish tvInfo = true -> exists e, updateStatusDisplay tvInfo w = (Abrupt e, w))
       /\ (nullish tvInfo = false ->
           fst (updateStatusDisplay tvInfo w)
           = if displayable tvInfo then Normal tt else Abrupt cannot_convert)).
Proof.
  cbv zeta.
  assert (same_but_display (dom w) (dom w)) as Hrefl by (repeat apply conj; reflexivity).
  assert (forall tvInfo,
            (nullish tvInfo = true -> exists e, updateStatusDisplay tvInfo w = (Abrupt e, w))
            /\ (nullish tvInfo = false ->
                fst (updateStatusDisplay tvInfo w)
                = if displayable tvInfo then Normal tt else Abrupt cannot_convert)) as Hu.
  { intros tvInfo. split; intros Hn;
      [apply updateStatusDisplay_nullish | apply updateStatusDisplay_completes]; exact Hn. }
  destruct c as [v|e]; [destruct (truthy v) eqn:Hv|].
  - destruct (refreshStatus_resumed_state v w Hv) as (d & Hs & E & Hd).
    split; [rewrite (refreshStatus_resumed_truthy v w Hv); reflexivity|].
    rewrite E.
    split; [reflexivity|]. split; [reflexivity|]. split; [reflexivity|].
    split; [exact Hs|]. split; [|exact Hu].
    intros v0 Hv0. injection Hv0 as <-. split; [congruence|]. intros _.
    split; [reflexivity|]. split; [reflexivity|].
    intros Hd'. rewrite <- E. exact (Hd Hd').
  - rewrite (refreshStatus_resumed_falsy v w Hv). cbn [fst snd].
    split; [reflexivity|].
    split; [reflexivity|]. split; [reflexivity|]. split; [reflexivity|].
    split; [exact Hrefl|]. split; [|exact Hu].
    intros v0 Hv0. injection Hv0 as <-. split; [reflexivity|congruence].
  - split; [reflexivity|].
    split; [reflexivity|]. split; [reflexivity|]. split; [reflexivity|].
    split; [exact Hrefl|]. split; [|exact Hu].
    intros v Hv. discriminate Hv.
Qed.

Lemma poll_never_throws_witness :
  fst (refreshStatus_resumed (Normal status_bad_input) polled) = Normal tt
  /\ snd (refreshStatus_resumed (Normal (VNum (integer 0))) connected) = connected
  /\ tvInfo (snd (refreshStatus_resumed (Normal status_bad_input) polled)) = status_bad_input
  /\ console (snd (refreshStatus_resumed (Normal status_bad_input) polled))
     = console polled ++ [("Failed to refresh status:", cannot_convert)]
  /\ powerStatus (dom (snd (refreshStatus_resumed (Normal (VStr "maintenance")) connected)))
     = "Unknown".
Proof.
  destruct (poll_never_throws (Normal status_bad_input) polled) as (H1 & _ & _ & _ & _ & H2 & _).
  destruct (poll_never_throws (Normal (VNum (integer 0))) connected)
    as (_ & _ & _ & _ & _ & H3 & _).
  destruct (poll_never_throws (Normal (VStr "maintenance")) connected)
    as (_ & _ & _ & _ & _ & H4 & _).
  destruct (proj2 (H2 status_bad_input eq_refl) eq_refl) as (Ht & Hc & _).
  repeat apply conj.
  - exact H1.
  - exact (proj1 (H3 (VNum (integer 0)) eq_refl) eq_refl).
  - exact Ht.
  - exact Hc.
  - destruct (proj2 (H4 (VStr "maintenance") eq_refl) eq_refl) as (_ & _ & Hd).
    rewrite (Hd eq_refl). vm_compute. reflexivity.
Defined.


(** X7. The display is rewritten line by line, and wholesale by a
    snapshot that converts: showing a snapshot twice is the same as showing
    it once, whatever the snapshot; showing a snapshot whose fields convert
    and that has a [volume] field, over any other snapshot (one that made
    the display throw half-way included), leaves exactly what showing it
    alone leaves.  When the later snapshot has no [volume] field, the volume
    line reads "0%" while the slider and its label keep what the earlier
    snapshot left. *)
Theorem updateStatusDisplay_overwrites (t1 t2 : Value) (w : World) :
  snd (updateStatusDisplay t2 (snd (updateStatusDisplay t2 w)))
  = snd (updateStatusDisplay t2 w)
  /\ (nullish t2 = false -> displayable t2 = true ->
      (is_defined (field_of t2 "volume") = true ->
       snd (updateStatusDisplay t2 (snd (updateStatusDisplay t1 w)))
       = snd (updateStatusDisplay t2 w))
      /\ (is_defined (field_of t2 "volume") = false ->
          let w' := snd (updateStatusDisplay t2 (snd (updateStatusDisplay t1 w))) in
          volumeStatus (dom w') = "0%"
          /\ volumeSlider_value (dom w')
             = volumeSlider_value (dom (snd (updateStatusDisplay t1 w)))
          /\ volumeValue (dom w') = volumeValue (dom (snd (updateStatusDisplay t1 w))))).
Proof.
  split; [|intros Hn Hd; split; intros Hv].
  - destruct t2; unfold_display; try reflexivity.
    conversion (lookup_prop "power" props); try reflexivity;
      (conversion (lookup_prop "volume" props); try reflexivity);
      (conversion (lookup_prop "input" props); try reflexivity);
      destruct (is_defined (lookup_prop "volume" props)); reflexivity.
  - destruct (updateStatusDisplay_writes_display t1 w) as (d1 & E1 & Hs).
    rewrite (updateStatusDisplay_dom_only t2 (snd (updateStatusDisplay t1 w))).
    rewrite (updateStatusDisplay_dom_only t2 w).
    rewrite (updateStatusDisplay_over_dom t2 w (snd (updateStatusDisplay t1 w)) Hn Hd Hv)
      by (rewrite E1; exact Hs).
    rewrite E1. reflexivity.
  - cbv zeta. generalize (snd (updateStatusDisplay t1 w)). intros w1.
    destruct t2; try discriminate Hn; clear Hn;
      unfold displayable, printable, field_of in Hd, Hv; cbn [get] in Hd, Hv;
      unfold_display; try (repeat apply conj; reflexivity).
    conversion (lookup_prop "power" props); try discriminate Hd;
      (conversion (lookup_prop "volume" props); try discriminate Hd);
      (conversion (lookup_prop "input" props); try discriminate Hd);
      rewrite Hv; try (repeat apply conj; reflexivity);
      destruct (lookup_prop "volume" props); discriminate.
Qed.

Lemma updateStatusDisplay_overwrites_witness :
  snd (updateStatusDisplay status_30 (snd (updateStatusDisplay status_bad_input connected)))
  = snd (updateStatusDisplay status_30 connected)
  /\ volumeSlider_value
       (dom (snd (updateStatusDisplay (VObj [("power", VStr "Off")])
                    (snd (updateStatusDisplay status_30 connected)))))
     = "30".
Proof.
  split.
  - destruct (updateStatusDisplay_overwrites status_bad_input status_30 connected)
      as (_ & H).
    exact (proj1 (H eq_refl eq_refl) eq_refl).
  - destruct (updateStatusDisplay_overwrites status_30 (VObj [("power", VStr "Off")])
                connected) as (_ & H).
    destruct (proj2 (H eq_refl eq_refl) eq_refl) as (_ & H2 & _).
    rewrite H2. vm_compute. reflexivity.
Defined.


(** ** Polls that settle out of order *)

(** X8. Two status polls in flight: whichever is read last is the one
    shown, whatever the order in which they were issued.  When the earlier
    request is the one that settles last, its older snapshot overwrites the
    newer one: the later snapshot's fields converting and it having a
    [volume] field, the whole display is its own, whatever the first one
    wrote. *)
Theorem last_settled_poll_wins (w : World) (id1 id2 : nat) (r1 r2 : Request)
    (v1 v2 : Value) :
  id1 <> id2 ->
  pending w !! id1 = Some (reading_body r1 K_refreshStatus) ->
  pending w !! id2 = Some (reading_body r2 K_refreshStatus) ->
  truthy v1 = true -> truthy v2 = true ->
  displayable v2 = true ->
  is_defined (field_of v2 "volume") = true ->
  let w' := run w [EvJsonSettled id1 (JsonParsed v1); EvJsonSettled id2 (JsonParsed v2)] in
  tvInfo w' = v2
  /\ dom w' = dom (step w (EvJsonSettled id2 (JsonParsed v2))).
Proof.
  intros Hne Hp1 Hp2 Hv1 Hv2 Hd2 Hvol w'. subst w'.
  cbn [run fold_left step].
  rewrite (json_settled_parsed id1 v1 _ w Hp1 eq_refl). cbn [p_caller reading_body resume].
  destruct (refreshStatus_resumed_state v1 (drop_pending id1 w) Hv1) as (d1 & Hs1 & E1 & _).
  rewrite E1.
  set (w1 := with_console _ _).
  assert (pending w1 !! id2 = Some (reading_body r2 K_refreshStatus)) as Hp2'.
  { subst w1. cbn [pending with_console with_dom with_tvInfo drop_pending with_net].
    rewrite lookup_delete_ne by exact Hne. exact Hp2. }
  rewrite (json_settled_parsed id2 v2 _ w1 Hp2' eq_refl).
  rewrite (json_settled_parsed id2 v2 _ w Hp2 eq_refl).
  cbn [p_caller reading_body resume].
  destruct (refreshStatus_resumed_state v2 (drop_pending id2 w1) Hv2) as (_ & _ & _ & ->);
    [|exact Hd2].
  destruct (refreshStatus_resumed_state v2 (drop_pending id2 w) Hv2) as (_ & _ & _ & ->);
    [|exact Hd2].
  split.
  - rewrite updateStatusDisplay_dom_only. reflexivity.
  - apply (updateStatusDisplay_over_dom v2 _ _ (truthy_not_nullish v2 Hv2) Hd2 Hvol).
    subst w1. exact Hs1.
Qed.

Lemma last_settled_poll_wins_witness :
  tvInfo (run two_polls [EvJsonSettled 3 (JsonParsed status_bad_input); EvJsonSettled 1 status_45])
  = VObj [("power", VStr "On"); ("volume", VNum (integer 45)); ("input", VStr "HDMI-1");
          ("muted", VBool false)]
  /\ volumeStatus
       (dom (run two_polls
               [EvJsonSettled 3 (JsonParsed status_bad_input); EvJsonSettled 1 status_45]))
     = "45%".
Proof.
  assert (pending two_polls !! 3 = Some (reading_body (get_request connected "/tv/info")
                                           K_refreshStatus)) as H3
    by (vm_compute; reflexivity).
  assert (pending two_polls !! 1 = Some (reading_body (get_request connected "/tv/info")
                                           K_refreshStatus)) as H1
    by (vm_compute; reflexivity).
  destruct (last_settled_poll_wins two_polls 3 1 _ _ status_bad_input
              (VObj [("power", VStr "On"); ("volume", VNum (integer 45));
                     ("input", VStr "HDMI-1"); ("muted", VBool false)])
              ltac:(discriminate) H3 H1 eq_refl eq_refl eq_refl eq_refl) as [Ht Hd].
  split; [exact Ht|].
  change status_45
    with (JsonParsed (VObj [("power", VStr "On"); ("volume", VNum (integer 45));
                            ("input", VStr "HDMI-1"); ("muted", VBool false)])).
  rewrite Hd. vm_compute. reflexivity.
Defined.


(** ** The apps grid *)

Lemma cards_app_assoc (w : World) (l1 l2 : list AppCard) :
  with_dom (fun d => dom_appsGrid (appsGrid d ++ l2) d)
    (with_dom (fun d => dom_appsGrid (appsGrid d ++ l1) d) w)
  = with_dom (fun d => dom_appsGrid (appsGrid d ++ l1 ++ l2) d) w.
Proof.
  destruct w as [u b t d0 c f p]. unfold with_dom, dom_appsGrid. cbn.
  rewrite <- app_assoc. reflexivity.
Qed.

Lemma cards_app_nil (w : World) :
  with_dom (fun d => dom_appsGrid (appsGrid d ++ []) d) w = w.
Proof.
  destruct w as [u b t d c f p]. destruct d. unfold with_dom, dom_appsGrid. cbn.
  rewrite app_nil_r. reflexivity.
Qed.

(** The loop of [loadApps] appends the cards of the names up to the first
    one whose label does not convert. *)
Lemma forEach_append_card (names : list Value) (w : World) :
  snd (forEach append_card names w)
  = with_dom (fun d => dom_appsGrid (appsGrid d ++ cards names) d) w.
Proof.
  revert w. induction names as [|appName rest IH]; intros w.
  - cbn [forEach cards]. rewrite cards_app_nil. reflexivity.
  - cbn [forEach cards]. unfold bind at 1. unfold append_card at 1.
    unfold bind, await, modify.
    destruct (textContent_of appName) as [label|e]; cbn [snd].
    + specialize (IH (with_dom
                        (fun d => dom_appsGrid
                                    (appsGrid d ++ [{| card_label := label;
                                                       card_appName := appName |}]) d) w)).
      destruct (forEach append_card rest _) as [c w1]. cbn [snd] in IH |- *.
      destruct c; rewrite IH; apply cards_app_assoc.
    + rewrite cards_app_nil. reflexivity.
Qed.

Lemma loadApps_resumed_run (v : Value) (w : World) :
  snd (loadApps_resumed (Normal v) w)
  = if truthy v then
      match field_of v "apps" with
      | VArr names => with_dom (dom_appsGrid (cards names)) w
      | apps => if truthy apps then with_dom (dom_appsGrid []) w else w
      end
    else w.
Proof.
  assert (forall names,
            snd (forEach append_card names (with_dom (dom_appsGrid []) w))
            = with_dom (dom_appsGrid (cards names)) w) as Hloop.
  { intros names. rewrite forEach_append_card. destruct w as [u b t d c f p]. reflexivity. }
  unfold loadApps_resumed, bind, await, modify, ret, throw. cbv beta iota.
  destruct (truthy v) eqn:Hv.
  - rewrite (get_field_of v "apps") by (destruct v; try discriminate Hv; reflexivity).
    cbv beta iota.
    destruct (field_of v "apps") as [| |[]|n|s0|names|q]; cbn [truthy]; try reflexivity.
    + destruct (negb (int_value n =? 0)%Z); reflexivity.
    + destruct (negb (s0 =? "")%string); reflexivity.
    + specialize (Hloop names).
      destruct (forEach append_card names (with_dom (dom_appsGrid []) w)) as [c w1].
      destruct c; exact Hloop.
  - cbv beta iota. rewrite Hv. reflexivity.
Qed.

(** What [cards] holds: the names of a prefix of the list, each with its
    label; the prefix stops at the first name that does not convert, and is
    the whole list when there is none. *)
Lemma cards_prefix (names : list Value) :
  map card_appName (cards names) = take (length (cards names)) names
  /\ Forall (fun c => textContent_of (card_appName c) = Normal (card_label c)) (cards names)
  /\ (forall k n, names !! k = Some n -> printable n = false -> length (cards names) <= k)
  /\ (Forall (fun n => printable n = true) names -> length (cards names) = length names)
  /\ (length (cards names) < length names ->
      exists n, names !! length (cards names) = Some n /\ printable n = false).
Proof.
  assert (forall n e, textContent_of n = Abrupt e -> printable n = false) as Hbad.
  { intros n e H. unfold printable. destruct n; try discriminate H;
      cbn [textContent_of] in H; rewrite H; reflexivity. }
  assert (forall n s, textContent_of n = Normal s -> printable n = true) as Hgood.
  { intros n s H. unfold printable. destruct n; try reflexivity;
      cbn [textContent_of] in H; rewrite H; reflexivity. }
  induction names as [|n rest (IH1 & IH2 & IH3 & IH4 & IH5)].
  - repeat apply conj; try reflexivity.
    + constructor.
    + intros k n H. discriminate H.
    + cbn. intros H. inversion H.
  - cbn [cards]. destruct (textContent_of n) as [label|e] eqn:E.
    + repeat apply conj.
      * cbn. f_equal. exact IH1.
      * constructor; [exact E|exact IH2].
      * intros [|k] m Hk Hm; cbn in Hk.
        -- injection Hk as <-. rewrite (Hgood n label E) in Hm. discriminate Hm.
        -- cbn. apply le_n_S. exact (IH3 k m Hk Hm).
      * intros H. inversion H; subst. cbn. f_equal. apply IH4. assumption.
      * cbn. intros H. apply PeanoNat.lt_S_n in H. exact (IH5 H).
    + repeat apply conj; try reflexivity.
      * constructor.
      * intros k m _ _. apply le_0_n.
      * intros H. inversion H as [|? ? Hn _]; subst. rewrite (Hbad n e E) in Hn.
        discriminate Hn.
      * intros _. exists n. split; [reflexivity|]. exact (Hbad n e E).
Qed.

(** X9. When the apps list has been read, the grid is emptied and one
    card is appended per name, in order, up to the first name that does not
    convert to a string (there the loop throws and the names after it get no
    card): the grid holds a card for every name when all convert.  An [apps]
    field that is truthy but not an array empties the grid (and the method
    then throws); a falsy body or a falsy or missing [apps] field leaves the
    grid as it was.  No request is sent and the connection flag is
    untouched. *)
Theorem apps_grid_replaced (w : World) (id : nat) (r : Request) (v : Value) :
  pending w !! id = Some (reading_body r K_loadApps) ->
  let w' := step w (EvJsonSettled id (JsonParsed v)) in
  fetched w' = fetched w
  /\ isConnected w' = isConnected w
  /\ dom w'
     = (if truthy v then
          match field_of v "apps" with
          | VArr names => dom_appsGrid (cards names) (dom w)
          | apps => if truthy apps then dom_appsGrid [] (dom w) else dom w
          end
        else dom w)
  /\ (forall names, truthy v = true -> field_of v "apps" = VArr names ->
      let grid := appsGrid (dom w') in
      map card_appName grid = take (length grid) names
      /\ Forall (fun c => textContent_of (card_appName c) = Normal (card_label c)) grid
      /\ (Forall (fun n => printable n = true) names -> length grid = length names)
      /\ (length grid < length names ->
          exists n, names !! length grid = Some n /\ printable n = false)).
Proof.
  intros Hp w'. subst w'. cbn [step].
  rewrite (json_settled_parsed id v _ w Hp eq_refl). cbn [p_caller reading_body resume].
  rewrite loadApps_resumed_run.
  split; [|split; [|split]].
  - destruct (truthy v); [|reflexivity].
    destruct (field_of v "apps"); try reflexivity;
      match goal with |- context [if ?b then _ else _] => destruct b end; reflexivity.
  - destruct (truthy v); [|reflexivity].
    destruct (field_of v "apps"); try reflexivity;
      match goal with |- context [if ?b then _ else _] => destruct b end; reflexivity.
  - destruct (truthy v); [|reflexivity].
    destruct (field_of v "apps"); try reflexivity;
      match goal with |- context [if ?b then _ else _] => destruct b end; reflexivity.
  - intros names Hv Ha. rewrite Hv, Ha. cbv zeta.
    cbn [dom with_dom drop_pending with_net appsGrid dom_appsGrid].
    destruct (cards_prefix names) as (H1 & H2 & _ & H4 & H5).
    repeat apply conj; assumption.
Qed.

Lemma apps_grid_replaced_witness :
  appsGrid (dom (step apps_being_read (EvJsonSettled 2 (JsonParsed apps_listed))))
  = [{| card_label := "Netflix"; card_appName := VStr "Netflix" |};
     {| card_label := "YouTube"; card_appName := VStr "YouTube" |}]
  /\ appsGrid (dom (step apps_being_read (EvJsonSettled 2 (JsonParsed apps_with_object))))
     = [{| card_label := "Netflix"; card_appName := VStr "Netflix" |}]
  /\ appsGrid (dom (step apps_being_read
                      (EvJsonSettled 2 (JsonParsed (VObj [("apps", VStr "none")])))))
     = [].
Proof.
  assert (pending apps_being_read !! 2
          = Some (reading_body (get_request connected "/tv/apps") K_loadApps)) as Hp
    by (vm_compute; reflexivity).
  repeat apply conj.
  - destruct (apps_grid_replaced apps_being_read 2 _ apps_listed Hp) as (_ & _ & H & _).
    rewrite H. reflexivity.
  - destruct (apps_grid_replaced apps_being_read 2 _ apps_with_object Hp) as (_ & _ & H & _).
    rewrite H. reflexivity.
  - destruct (apps_grid_replaced apps_being_read 2 _ (VObj [("apps", VStr "none")]) Hp)
      as (_ & _ & H & _).
    rewrite H. reflexivity.
Defined.


End Display.

Section Silence.
Import Controller.

(** ** A session that is not connected *)

Lemma refreshStatus_disconnected (w : World) :
  isConnected w = false -> refreshStatus w = (Normal tt, w).
Proof. intros Hc. unfold refreshStatus; run_monad. rewrite Hc. reflexivity. Qed.

Lemma dispatcher_resumed_silent (k : Caller) (c : Completion Value) (w : World) :
  is_dispatcher k = true ->
  isConnected w = false ->
  fetched (snd (resume k c w)) = fetched w.
Proof.
  intros Hk Hc.
  assert (forall f, refreshStatus (with_dom f w) = (Normal tt, with_dom f w)) as Hr.
  { intros f. apply refreshStatus_disconnected. exact Hc. }
  destruct k; try discriminate Hk; destruct c as [v|e]; cbn [resume];
    unfold setPower_resumed, setVolume_resumed, setMute_resumed, setInput_resumed,
      launchApp_resumed, sendRemoteKey_resumed, showToast, showLoading; run_monad;
    try (destruct (truthy v)); try (destruct (toString _)); rewrite ?Hr; reflexivity.
Qed.

Lemma resume_silent (k : Caller) (c : Completion Value) (w : World) :
  isConnected w = false -> is_testConnection k = false ->
  fetched (snd (resume k c w)) = fetched w.
Proof.
  intros Hc Hk. destruct k; try discriminate Hk;
    try (apply dispatcher_resumed_silent; [reflexivity|exact Hc]).
  - destruct c as [v|e]; [|reflexivity]. cbn [resume].
    destruct (truthy v) eqn:Hv.
    + destruct (refreshStatus_resumed_state v w Hv) as (d & _ & E & _).
      rewrite E. reflexivity.
    + rewrite (refreshStatus_resumed_falsy v w Hv). reflexivity.
  - destruct c as [v|e]; [|reflexivity]. cbn [resume].
    rewrite loadApps_resumed_run.
    destruct (truthy v); [|reflexivity].
    destruct (field_of v "apps"); try reflexivity;
      match goal with |- context [if ?b then _ else _] => destruct b end; reflexivity.
Qed.

(** X4. A session that is not connected sends nothing but the probe:
    while [isConnected] is false, every event other than a connection test
    and the settling of its probe (commands, refreshes, visibility and
    network signals, late answers to earlier requests) leaves the log of
    requests unchanged and the flag false. *)
Theorem disconnected_session_sends_only_probe (w : World) (ev : Event) :
  isConnected w = false ->
  settles_for is_testConnection w ev = false ->
  ev <> EvTestConnection ->
  fetched (step w ev) = fetched w /\ isConnected (step w ev) = false.
Proof.
  intros Hc Hk Hne. split.
  - destruct ev as [i| | | | | |hidden|id o|id j]; cbn [step].
    + rewrite (dispatch_not_connected i w Hc). reflexivity.
    + rewrite (refreshStatus_disconnected w Hc). reflexivity.
    + congruence.
    + unfold refreshAllData, showToast; run_monad.
      rewrite (refreshStatus_disconnected w Hc). reflexivity.
    + reflexivity.
    + reflexivity.
    + unfold on_visibilitychange; run_monad. rewrite Hc, andb_false_r. reflexivity.
    + cbn [settles_for] in Hk. unfold fetch_settled.
      destruct (pending w !! id) as [p|] eqn:Hp; [|reflexivity].
      destruct (p_stage p) eqn:Hs; [|reflexivity].
      destruct (transport_failure o) eqn:Hf.
      * rewrite (makeApiRequest_fetched_failure o _ Hf), makeApiRequest_catch_state.
        erewrite resume_silent; [reflexivity | exact Hc | exact Hk].
      * destruct o as [r|e]; [|discriminate Hf]. apply negb_false_iff in Hf.
        rewrite (makeApiRequest_fetched_ok r _ Hf). reflexivity.
    + cbn [settles_for] in Hk. unfold json_settled.
      destruct (pending w !! id) as [p|] eqn:Hp; [|reflexivity].
      destruct (p_stage p) eqn:Hs; [reflexivity|].
      destruct j as [v|e].
      * change (makeApiRequest_parsed (JsonParsed v) (drop_pending id w))
          with (Normal v, drop_pending id w).
        cbv beta iota.
        erewrite resume_silent; [reflexivity | exact Hc | exact Hk].
      * change (makeApiRequest_parsed (JsonRejected e) (drop_pending id w))
          with (Normal VNull, snd (makeApiRequest_catch e (drop_pending id w))).
        cbv beta iota. rewrite makeApiRequest_catch_state.
        erewrite resume_silent; [reflexivity | exact Hc | exact Hk].
  - rewrite <- Hc. apply (keeps_step _ flag_frame is_testConnection).
    + discriminate.
    + intros _ c. apply (keeps_refreshStatus_resumed _ flag_frame). reflexivity.
    + exact Hk.
Qed.

Lemma disconnected_session_sends_only_probe_witness :
  isConnected started = false
  /\ fetched (step started EvRefreshAllData) = fetched started
  /\ fetched (step started (EvVisibilityChange false)) = fetched started.
Proof.
  split; [reflexivity|]. split.
  - apply (disconnected_session_sends_only_probe started EvRefreshAllData);
      [reflexivity | reflexivity | discriminate].
  - apply (disconnected_session_sends_only_probe started (EvVisibilityChange false));
      [reflexivity | reflexivity | discriminate].
Defined.


End Silence.

Section SettingsProps.
Import Controller.

(** ** Settings *)

Lemma stored_apiUrl_item (s : string) :
  stored_apiUrl (if negb (String.eqb s "") then Some s else None) = s.
Proof.
  destruct (String.eqb s "") eqn:E; cbn [negb stored_apiUrl].
  - apply String.eqb_eq in E. congruence.
  - rewrite E. reflexivity.
Qed.

(** X10. Saving the API URL and loading the page again: the origin in
    effect after the save is the trimmed text of the input, and it is the
    origin in effect after the reload, shown in the input and used by the
    first probe; an input that trims to the empty string removes the stored
    item and gives the page's own origin.  After a reset the origin is the
    page's own, before and after a reload. *)
Theorem saved_origin_survives_reload (trim : string -> string) (pg : Page) (d : Dom) :
  let newUrl := trim (apiUrlInput_value (dom (world pg))) in
  (let pg1 := saveApiUrl trim pg in
   let pg2 := page_step trim pg1 (PgReload d) in
   apiUrl (world pg1) = newUrl
   /\ apiUrl (world pg2) = newUrl
   /\ apiUrlInput_value (dom (world pg2)) = newUrl
   /\ fetched (world pg2)
      = [{| url := newUrl +:+ "/health"; method := "GET"; body := None |}])
  /\ (let pg1 := resetSettings pg in
      let pg2 := page_step trim pg1 (PgReload d) in
      apiUrl (world pg1) = ""
      /\ apiUrlInput_value (dom (world pg1)) = ""
      /\ vizioApiUrl pg1 = None
      /\ apiUrl (world pg2) = ""
      /\ fetched (world pg2) = [{| url := "/health"; method := "GET"; body := None |}]).
Proof.
  intros newUrl. split.
  - cbv zeta. cbn [page_step saveApiUrl vizioApiUrl load world].
    fold newUrl.
    assert (forall item, apiUrl (constructor item d) = stored_apiUrl item) as Ha
      by reflexivity.
    assert (forall item, apiUrlInput_value (dom (constructor item d)) = stored_apiUrl item)
      as Hi by reflexivity.
    assert (forall item, fetched (constructor item d)
                         = [{| url := stored_apiUrl item +:+ "/health"; method := "GET";
                               body := None |}]) as Hf by reflexivity.
    rewrite Ha, Hi, Hf, stored_apiUrl_item. repeat apply conj; reflexivity.
  - cbv zeta. repeat apply conj; reflexivity.
Qed.

(** X11. Editing, saving or resetting the API URL leaves the session as
    it is: the flag, the label, the snapshot, the log of requests and the
    requests in flight are unchanged and no probe is sent; on a connected
    session the next command goes at once to the origin now in effect. *)
Theorem saving_settings_keeps_session (trim : string -> string) (pg : Page)
    (ev : PageEvent) :
  match ev with
  | PgEvent _ | PgReload _ => True
  | PgEditApiUrl _ | PgSaveApiUrl | PgResetSettings =>
      let w := world pg in
      let w' := world (page_step trim pg ev) in
      isConnected w' = isConnected w
      /\ statusText (dom w') = statusText (dom w)
      /\ tvInfo w' = tvInfo w
      /\ fetched w' = fetched w
      /\ pending w' = pending w
      /\ (isConnected w = true ->
          forall i, fetched (step w' (EvIntent i)) = fetched w ++ [request_of w' i])
  end.
Proof.
  destruct ev; try exact I; cbv zeta; repeat apply conj; try reflexivity;
    intros Hc i; cbn [step]; rewrite dispatch_connected by exact Hc; reflexivity.
Qed.

Lemma saving_settings_keeps_session_witness :
  let pg := page_run trim_ascii connected_page [PgEditApiUrl typed_origin; PgSaveApiUrl] in
  isConnected (world pg) = true
  /\ fetched (world pg) = fetched connected
  /\ fetched (step (world pg) (EvIntent (Mute (PBool true))))
     = fetched connected
       ++ [{| url := "http://192.168.1.20:8000/tv/mute?muted=true"; method := "POST";
              body := None |}].
Proof.
  cbv zeta. cbn [page_run fold_left].
  pose proof (saving_settings_keeps_session trim_ascii connected_page
                (PgEditApiUrl typed_origin)) as H1.
  pose proof (saving_settings_keeps_session trim_ascii
                (page_step trim_ascii connected_page (PgEditApiUrl typed_origin))
                PgSaveApiUrl) as H2.
  cbv zeta in H1, H2.
  destruct H1 as (Hc1 & _ & _ & Hf1 & _).
  destruct H2 as (Hc2 & _ & _ & Hf2 & _ & Hn).
  assert (isConnected (world connected_page) = true) as Hc by (vm_compute; reflexivity).
  repeat apply conj.
  - rewrite Hc2, Hc1. exact Hc.
  - rewrite Hf2, Hf1. reflexivity.
  - rewrite (Hn (eq_trans Hc1 Hc) (Mute (PBool true))), Hf1.
    f_equal; vm_compute; reflexivity.
Defined.

Example saved_origin_is_trimmed :
  apiUrl (world saved) = "http://192.168.1.20:8000"
  /\ vizioApiUrl saved = Some "http://192.168.1.20:8000".
Proof. split; vm_compute; reflexivity. Qed.

End SettingsProps.

(** * Properties of the tab navigation *)

Section Tabs.
Import TabNavigation.

(** ** Tab navigation *)

Lemma lookup_List_map {A B} (f : A -> B) (l : list A) (k : nat) :
  map f l !! k = f <$> l !! k.
Proof.
  revert k. induction l as [|x l IH]; intros [|k]; try reflexivity. apply IH.
Qed.

Lemma getElementById_map (f : Element -> Element) (doc : list Element) (id : string) :
  (forall e, el_id (f e) = el_id e) ->
  getElementById (map f doc) id = getElementById doc id.
Proof.
  intros Hf. induction doc as [|e doc IH]; [reflexivity|].
  cbn [map getElementById]. unfold has_id. rewrite Hf, IH. reflexivity.
Qed.

Lemma getElementById_alter (f : Element -> Element) (i : nat) (doc : list Element)
    (id : string) :
  (forall e, el_id (f e) = el_id e) ->
  getElementById (alter f i doc) id = getElementById doc id.
Proof.
  intros Hf. revert i. induction doc as [|e doc IH]; intros [|i]; try reflexivity.
  - cbn [alter list_alter getElementById]. unfold has_id. rewrite Hf. reflexivity.
  - cbn [alter list_alter getElementById]. change (list_alter f i doc) with (alter f i doc).
    rewrite IH. reflexivity.
Qed.

Lemma getElementById_clicked (i : nat) (doc : list Element) (id : string) :
  getElementById
    (remove_active tab_panel (alter (set_active true) i (remove_active tab_btn doc))) id
  = getElementById doc id.
Proof.
  unfold remove_active.
  rewrite getElementById_map by (intros e; destruct (tab_panel e); reflexivity).
  rewrite getElementById_alter by reflexivity.
  apply getElementById_map. intros e. destruct (tab_btn e); reflexivity.
Qed.

(** What a click leaves of the element at position [k]; [target] is where
    [getElementById] found the panel, if it did. *)
Lemma click_lookup (i : nat) (doc : list Element) (button : Element) (k : nat) :
  doc !! i = Some button -> tab_btn button = true ->
  snd (click i doc) !! k
  = (fun e0 =>
       let e1 := if tab_btn e0 then set_active false e0 else e0 in
       let e2 := if bool_decide (k = i) then set_active true e1 else e1 in
       let e3 := if tab_panel e2 then set_active false e2 else e2 in
       if bool_decide (getElementById doc (targetTab button) = Some k)
       then set_active true e3 else e3) <$> doc !! k.
Proof.
  intros Hi Hb. unfold click. rewrite Hi, Hb, getElementById_clicked.
  assert (remove_active tab_panel
            (alter (set_active true) i (remove_active tab_btn doc)) !! k
          = (fun e0 =>
               let e1 := if tab_btn e0 then set_active false e0 else e0 in
               let e2 := if bool_decide (k = i) then set_active true e1 else e1 in
               if tab_panel e2 then set_active false e2 else e2) <$> doc !! k) as H3.
  { unfold remove_active. rewrite lookup_List_map.
    destruct (decide (k = i)) as [->|Hne].
    - rewrite list_lookup_alter_eq, lookup_List_map, Hi.
      rewrite (bool_decide_eq_true_2 (i = i)) by reflexivity. reflexivity.
    - rewrite list_lookup_alter_ne by congruence. rewrite lookup_List_map.
      rewrite (bool_decide_eq_false_2 (k = i)) by exact Hne.
      destruct (doc !! k); reflexivity. }
  destruct (getElementById doc (targetTab button)) as [j|]; cbn [snd].
  - destruct (decide (j = k)) as [->|Hne].
    + rewrite list_lookup_alter_eq, H3.
      rewrite (bool_decide_eq_true_2 (Some k = Some k)) by reflexivity.
      destruct (doc !! k); reflexivity.
    + rewrite list_lookup_alter_ne by exact Hne. rewrite H3.
      rewrite (bool_decide_eq_false_2 (Some j = Some k)) by congruence.
      destruct (doc !! k); reflexivity.
  - rewrite H3. rewrite (bool_decide_eq_false_2 (None = Some k)) by discriminate.
    destruct (doc !! k); reflexivity.
Qed.

(** X12. A click on a tab button whose [data-tab] names a panel, on a
    page where no element is both button and panel: the listener completes,
    the clicked button is the only active button and the named panel the
    only active panel; ids, classes and attributes are untouched, and so is
    the [active] class of every other element. *)
Theorem click_shows_one_tab (i j : nat) (doc : list Element) (button pnl : Element) :
  doc !! i = Some button -> tab_btn button = true ->
  getElementById doc (targetTab button) = Some j ->
  doc !! j = Some pnl -> tab_panel pnl = true ->
  classes_apart doc ->
  fst (click i doc) = Normal tt
  /\ length (snd (click i doc)) = length doc
  /\ forall k e, snd (click i doc) !! k = Some e ->
       exists e0, doc !! k = Some e0
         /\ el_id e = el_id e0 /\ tab_btn e = tab_btn e0
         /\ tab_panel e = tab_panel e0 /\ data_tab e = data_tab e0
         /\ (tab_btn e = true -> active e = bool_decide (k = i))
         /\ (tab_panel e = true -> active e = bool_decide (k = j))
         /\ (tab_btn e = false -> tab_panel e = false -> active e = active e0).
Proof.
  intros Hi Hb Hj Hpj Hp Hapart.
  assert (i <> j) as Hij.
  { intros ->. rewrite Hi in Hpj. injection Hpj as <-.
    unfold classes_apart in Hapart. rewrite List.Forall_forall in Hapart.
    assert (In button doc) as Hin.
    { apply list_elem_of_In. apply list_elem_of_lookup. eauto. }
    specialize (Hapart button Hin). rewrite Hb, Hp in Hapart. discriminate. }
  repeat apply conj.
  - unfold click. rewrite Hi, Hb, getElementById_clicked, Hj. reflexivity.
  - unfold click. rewrite Hi, Hb, getElementById_clicked, Hj. cbn [snd].
    unfold remove_active. rewrite length_alter, length_map, length_alter, length_map.
    reflexivity.
  - intros k e Hk. rewrite (click_lookup i doc button k Hi Hb), Hj in Hk.
    destruct (doc !! k) as [e0|] eqn:Hk0; [|discriminate Hk].
    exists e0. split; [reflexivity|].
    assert (tab_btn e0 && tab_panel e0 = false) as Ha.
    { unfold classes_apart in Hapart. rewrite List.Forall_forall in Hapart.
      apply Hapart. apply list_elem_of_In. apply list_elem_of_lookup. eauto. }
    cbn [fmap option_fmap option_map] in Hk. injection Hk as <-.
    destruct (decide (k = i)) as [->|Hki].
    + rewrite Hi in Hk0. injection Hk0 as <-.
      rewrite Hb in *. cbn [andb] in Ha.
      rewrite (bool_decide_eq_true_2 (i = i)) by reflexivity.
      rewrite (bool_decide_eq_false_2 (Some j = Some i)) by congruence.
      rewrite (bool_decide_eq_false_2 (i = j)) by exact Hij.
      cbn. rewrite Ha. cbn. rewrite Hb, Ha. repeat apply conj; try reflexivity; congruence.
    + rewrite (bool_decide_eq_false_2 (k = i)) by exact Hki.
      destruct (decide (k = j)) as [->|Hkj].
      * rewrite Hpj in Hk0. injection Hk0 as <-.
        rewrite Hp in *. rewrite andb_true_r in Ha.
        rewrite (bool_decide_eq_true_2 (Some j = Some j)) by reflexivity.
        rewrite (bool_decide_eq_true_2 (j = j)) by reflexivity.
        rewrite Ha. cbn. rewrite Hp. cbn. rewrite Ha, Hp.
        repeat apply conj; try reflexivity; congruence.
      * rewrite (bool_decide_eq_false_2 (Some j = Some k)) by congruence.
        rewrite (bool_decide_eq_false_2 (k = j)) by exact Hkj.
        destruct (tab_btn e0) eqn:Eb, (tab_panel e0) eqn:Ep; try discriminate Ha;
          cbn; rewrite ?Eb, ?Ep; cbn; rewrite ?Eb, ?Ep;
          repeat apply conj; try reflexivity; congruence.
Qed.

Lemma click_shows_one_tab_witness :
  fst (click 1 tabs) = Normal tt
  /\ map active (snd (click 1 tabs)) = [false; true; false; false; true; false].
Proof.
  assert (classes_apart tabs) as Ha by (repeat constructor).
  destruct (click_shows_one_tab 1 4 tabs (button_for "apps" false) (panel "apps" false)
              eq_refl eq_refl eq_refl eq_refl eq_refl Ha) as (H & _ & _).
  split; [exact H|]. vm_compute. reflexivity.
Defined.


(** X13. A click on a tab button whose [data-tab] names no element of
    the document: the listener throws, after it has made the clicked button
    the active one and taken [active] off every panel, so no panel is shown
    any more. *)
Theorem click_without_panel_blanks (i : nat) (doc : list Element) (button : Element) :
  doc !! i = Some button -> tab_btn button = true ->
  getElementById doc (targetTab button) = None ->
  (exists e, fst (click i doc) = Abrupt e)
  /\ forall k e, snd (click i doc) !! k = Some e ->
       (tab_panel e = true -> active e = false)
       /\ (tab_btn e = true -> tab_panel e = false -> active e = bool_decide (k = i)).
Proof.
  intros Hi Hb Hj. split.
  - unfold click. rewrite Hi, Hb, getElementById_clicked, Hj. eexists. reflexivity.
  - intros k e Hk. rewrite (click_lookup i doc button k Hi Hb), Hj in Hk.
    destruct (doc !! k) as [e0|] eqn:Hk0; [|discriminate Hk].
    cbn [fmap option_fmap option_map] in Hk. injection Hk as <-.
    destruct (bool_decide (k = i)), (tab_btn e0) eqn:Eb, (tab_panel e0) eqn:Ep;
      cbn; rewrite ?Eb, ?Ep; cbn; rewrite ?Eb, ?Ep; split; intros; congruence.
Qed.

Lemma click_without_panel_blanks_witness :
  (exists e, fst (click 1 broken_tabs) = Abrupt e)
  /\ map active (snd (click 1 broken_tabs)) = [false; true; false; false].
Proof.
  destruct (click_without_panel_blanks 1 broken_tabs (button_for "inputs" false)
              eq_refl eq_refl eq_refl) as [H _].
  split; [exact H|]. vm_compute. reflexivity.
Defined.


End Tabs.

(** * Properties of the cache generations *)

Section Generations.
Import ServiceWorker.

(** ** Activation *)

Lemma fold_delete_filter (names : list string) (cs : CacheStorage) :
  fold_left
    (fun cs cacheName =>
       if negb (String.eqb cacheName CACHE_NAME) then caches_delete cs cacheName else cs)
    names cs
  = List.filter
      (fun nc => negb (existsb (fun n => negb (String.eqb n CACHE_NAME)
                                         && String.eqb (fst nc) n) names))
      cs.
Proof.
  revert cs. induction names as [|n names IH]; intros cs.
  - cbn. induction cs as [|nc cs IHcs]; [reflexivity|]. cbn. f_equal. exact IHcs.
  - cbn [fold_left existsb]. rewrite IH.
    destruct (negb (String.eqb n CACHE_NAME)) eqn:En; cbn [andb orb].
    + unfold caches_delete. clear IH.
      induction cs as [|nc cs IHcs]; [reflexivity|].
      cbn [List.filter]. destruct (String.eqb (fst nc) n) eqn:E; cbn [negb orb].
      * exact IHcs.
      * cbn [List.filter]. destruct (negb (existsb _ names)); [f_equal|]; exact IHcs.
    + reflexivity.
Qed.

Lemma on_activate_filter (st : State) :
  caches (on_activate st)
  = List.filter (fun nc => String.eqb (fst nc) CACHE_NAME) (caches st).
Proof.
  unfold on_activate. cbn [caches with_caches]. rewrite fold_delete_filter.
  apply filter_ext_in. intros nc Hin.
  destruct (String.eqb (fst nc) CACHE_NAME) eqn:E.
  - apply negb_true_iff. apply not_true_is_false. intros Hex.
    apply existsb_exists in Hex as (n & _ & Hn).
    apply andb_prop in Hn as [Hn1 Hn2]. apply String.eqb_eq in Hn2, E.
    rewrite <- Hn2, E in Hn1. rewrite String.eqb_refl in Hn1. discriminate.
  - apply negb_false_iff. apply existsb_exists. exists (fst nc). split.
    + unfold caches_keys. apply in_map, Hin.
    + rewrite E, String.eqb_refl. reflexivity.
Qed.

Lemma caches_get_filter (cs : CacheStorage) :
  caches_get (List.filter (fun nc => String.eqb (fst nc) CACHE_NAME) cs) CACHE_NAME
  = caches_get cs CACHE_NAME.
Proof.
  induction cs as [|[n c] cs IH]; [reflexivity|].
  cbn [List.filter fst caches_get]. destruct (String.eqb n CACHE_NAME) eqn:E.
  - cbn [caches_get]. rewrite E. reflexivity.
  - exact IH.
Qed.

Lemma filter_filter_same {A} (f : A -> bool) (l : list A) :
  List.filter f (List.filter f l) = List.filter f l.
Proof.
  induction l as [|x l IH]; [reflexivity|].
  cbn [List.filter]. destruct (f x) eqn:E; [|exact IH].
  cbn [List.filter]. rewrite E, IH. reflexivity.
Qed.

(** X14. Activation keeps the current generation and nothing else: the
    caches left are exactly those named [CACHE_NAME], in their order and
    with their content; the current cache is the one it was; activating
    twice is activating once; nothing is fetched. *)
Theorem activate_keeps_current_generation (st : State) :
  caches (on_activate st)
  = List.filter (fun nc => String.eqb (fst nc) CACHE_NAME) (caches st)
  /\ (forall name c, In (name, c) (caches (on_activate st)) ->
      name = CACHE_NAME /\ In (name, c) (caches st))
  /\ caches_get (caches (on_activate st)) CACHE_NAME = caches_get (caches st) CACHE_NAME
  /\ on_activate (on_activate st) = on_activate st
  /\ fetched (on_activate st) = fetched st.
Proof.
  repeat apply conj.
  - apply on_activate_filter.
  - intros name c Hin. rewrite on_activate_filter in Hin.
    apply filter_In in Hin as [Hin E]. apply String.eqb_eq in E. split; assumption.
  - rewrite on_activate_filter. apply caches_get_filter.
  - pose proof (on_activate_filter (on_activate st)) as H.
    rewrite (on_activate_filter st), filter_filter_same in H.
    rewrite <- (on_activate_filter st) in H.
    destruct st as [o cs f]. unfold on_activate in *. cbn [caches with_caches] in *.
    cbn [location_origin fetched]. rewrite H. reflexivity.
  - reflexivity.
Qed.

Lemma activate_keeps_current_generation_witness :
  caches_keys (caches (run upgraded_from [Install online])) 
  = ["vizio-tv-controller-v0"; CACHE_NAME]
  /\ caches_keys (caches (run upgraded_from [Install online; Activate])) = [CACHE_NAME].
Proof.
  split; [vm_compute; reflexivity|].
  cbn [run fold_left step].
  rewrite (proj1 (activate_keeps_current_generation (on_install online upgraded_from))).
  vm_compute. reflexivity.
Defined.


(** ** Installation *)

Lemma cacheable_served (r : Response) :
  ok r = true -> status r <> 206%Z -> cacheable r = true.
Proof.
  intros Hok Hs. unfold cacheable. rewrite Hok. cbn [andb].
  apply negb_true_iff, Z.eqb_neq, Hs.
Qed.

Lemma cacheable_inv (r : Response) :
  cacheable r = true -> ok r = true /\ status r <> 206%Z.
Proof.
  unfold cacheable. intros H. apply andb_prop in H as [Hok Hs]. split; [exact Hok|].
  apply Z.eqb_neq, negb_true_iff, Hs.
Qed.

Lemma serves_fetch_all (net : Url -> FetchOutcome) (urls : list Url) :
  serves net urls -> exists entries, fetch_all net urls = Some entries.
Proof.
  induction 1 as [|u urls (r & Hr & Hok & Hwhole) _ [entries IH]]; cbn [fetch_all].
  - eexists. reflexivity.
  - rewrite Hr, (cacheable_served r Hok Hwhole), IH. eexists. reflexivity.
Qed.

Lemma fetch_all_None (net : Url -> FetchOutcome) (urls : list Url) :
  fetch_all net urls = None -> ~ serves net urls.
Proof.
  intros Hn Hs. destruct (serves_fetch_all net urls Hs) as [entries He]. congruence.
Qed.

Lemma put_all_lookup (net : Url -> FetchOutcome) (urls : list Url)
    (entries : list (Url * Response)) (c : gmap Url Response) (u : Url) :
  fetch_all net urls = Some entries ->
  (In u urls -> put_all entries c !! u = answer net u)
  /\ (~ In u urls -> put_all entries c !! u = c !! u).
Proof.
  revert entries c. induction urls as [|u0 urls IH]; intros entries c H; cbn [fetch_all] in H.
  - injection H as <-. split; [intros []|reflexivity].
  - destruct (net u0) as [r0|e] eqn:Hn; [|discriminate].
    destruct (cacheable r0); [|discriminate].
    destruct (fetch_all net urls) as [l|]; [|discriminate].
    injection H as <-. cbn [put_all fold_left fst snd].
    change (fold_left (fun acc e => <[fst e := snd e]> acc) l (<[u0:=r0]> c))
      with (put_all l (<[u0:=r0]> c)).
    destruct (IH l (<[u0:=r0]> c) eq_refl) as [Hin Hout].
    split.
    + intros Hu. destruct (in_dec Url_eq_dec u urls) as [Hi|Hi]; [exact (Hin Hi)|].
      destruct Hu as [<-|Hu]; [|contradiction].
      rewrite (Hout Hi), lookup_insert_eq. unfold answer. rewrite Hn. reflexivity.
    + intros Hu. rewrite Hout by (intros Hi; apply Hu; right; exact Hi).
      apply lookup_insert_ne. intros ->. apply Hu. left. reflexivity.
Qed.

Lemma caches_get_open (cs : CacheStorage) (name : string) :
  caches_get (caches_open cs name) name = Some (default ∅ (caches_get cs name)).
Proof.
  unfold caches_open. destruct (caches_get cs name) as [c|] eqn:E.
  - rewrite E. reflexivity.
  - cbn [default]. induction cs as [|[n c0] cs IH]; cbn [app caches_get] in *.
    + rewrite String.eqb_refl. reflexivity.
    + destruct (String.eqb n name); [discriminate E|]. apply IH, E.
Qed.

Lemma caches_get_None (cs : CacheStorage) (name : string) :
  caches_get cs name = None -> ~ In name (caches_keys cs).
Proof.
  induction cs as [|[n c] cs IH]; cbn [caches_get caches_keys map fst]; [intros _ []|].
  destruct (String.eqb n name) eqn:E; [discriminate|].
  intros H [Hn|Hin]; [|exact (IH H Hin)].
  subst n. rewrite String.eqb_refl in E. discriminate.
Qed.

Lemma caches_open_NoDup (cs : CacheStorage) (name : string) :
  List.NoDup (caches_keys cs) -> List.NoDup (caches_keys (caches_open cs name)).
Proof.
  intros Hnd. unfold caches_open. destruct (caches_get cs name) eqn:E; [exact Hnd|].
  unfold caches_keys. rewrite map_app. cbn [map fst].
  apply List.NoDup_app.
  - exact Hnd.
  - constructor; [intros []|constructor].
  - intros n Hin [Hn|[]]. subst n. exact (caches_get_None cs name E Hin).
Qed.

Lemma filter_set_current (cs : CacheStorage) (c0 c : gmap Url Response) :
  List.NoDup (caches_keys cs) -> caches_get cs CACHE_NAME = Some c0 ->
  List.filter (fun nc => String.eqb (fst nc) CACHE_NAME) (caches_set cs CACHE_NAME c)
  = [(CACHE_NAME, c)].
Proof.
  induction cs as [|[n c1] cs IH]; cbn [caches_get caches_keys map fst]; [discriminate|].
  intros Hnd Hget. inversion Hnd as [|? ? Hn Hnd']; subst.
  cbn [caches_set]. destruct (String.eqb n CACHE_NAME) eqn:E.
  - apply String.eqb_eq in E. subst n.
    cbn [List.filter fst]. rewrite String.eqb_refl. f_equal.
    clear IH Hget Hnd Hnd'.
    induction cs as [|[n c2] cs IHcs]; [reflexivity|].
    cbn [List.filter fst]. destruct (String.eqb n CACHE_NAME) eqn:E.
    + apply String.eqb_eq in E. subst n. exfalso. apply Hn. left. reflexivity.
    + apply IHcs. intros Hin. apply Hn. right. exact Hin.
  - cbn [List.filter fst]. rewrite E. apply IH; assumption.
Qed.

Lemma static_not_api (p : string) : In p urlsToCache -> forall o,
  isApi (get_request (resolve o p)) = false.
Proof.
  intros Hp o. cbn in Hp. destruct Hp as [<-|[<-|[<-|[<-|[<-|[]]]]]]; reflexivity.
Qed.

Lemma install_then_activate_caches (net : Url -> FetchOutcome) (st : State)
    (entries : list (Url * Response)) :
  List.NoDup (caches_keys (caches st)) ->
  fetch_all net (static_urls (location_origin st)) = Some entries ->
  caches (run st [Install net; Activate])
  = [(CACHE_NAME, put_all entries (default ∅ (caches_get (caches st) CACHE_NAME)))]
  /\ location_origin (run st [Install net; Activate]) = location_origin st.
Proof.
  intros Hnd Hall. cbn [run fold_left step].
  rewrite on_activate_filter.
  unfold on_install, addAll.
  rewrite caches_get_open.
  change (map (resolve (location_origin st)) urlsToCache)
    with (static_urls (location_origin st)).
  rewrite Hall. cbn [caches with_caches with_fetched location_origin on_activate].
  split; [|reflexivity].
  apply (filter_set_current _ (default ∅ (caches_get (caches st) CACHE_NAME))).
  - apply caches_open_NoDup, Hnd.
  - apply caches_get_open.
Qed.

Lemma caches_match_single (name : string) (c : gmap Url Response) (u : Url) :
  caches_match [(name, c)] (get_request u) = c !! u.
Proof. cbn. destruct (c !! u); reflexivity. Qed.

(** Answers with status 206 are refused by [addAll]: nothing is
    installed from them. *)
Example partial_content_is_not_installed :
  caches (on_install partial_content (fresh site)) = [(CACHE_NAME, ∅)]
  /\ fst (on_fetch stylesheet unreachable
            (run (fresh site) [Install partial_content; Activate]))
     = NetworkError.
Proof. split; vm_compute; reflexivity. Qed.

(** X15. Install then activate, on a storage whose cache names are
    distinct and a network that serves the five static URLs, each with an ok
    response other than 206 (what [addAll] accepts): a single cache,
    [CACHE_NAME], is left, and every precached URL is then answered from it
    with the response fetched at install time, without touching the network,
    whether the network is up or not. *)
Theorem precached_assets_served_offline (net : Url -> FetchOutcome) (st : State) :
  List.NoDup (caches_keys (caches st)) ->
  serves net (static_urls (location_origin st)) ->
  let st' := run st [Install net; Activate] in
  caches_keys (caches st') = [CACHE_NAME]
  /\ forall p net', In p urlsToCache ->
       exists r, net (resolve (location_origin st) p) = FetchResponse r
         /\ on_fetch (get_request (resolve (location_origin st) p)) net' st'
            = (Respond r, st').
Proof.
  intros Hnd Hs st'.
  destruct (serves_fetch_all _ _ Hs) as [entries Hall].
  destruct (install_then_activate_caches net st entries Hnd Hall) as [Hc Ho].
  fold st' in Hc, Ho. split.
  - unfold caches_keys. rewrite Hc. reflexivity.
  - intros p net' Hp.
    assert (In (resolve (location_origin st) p) (static_urls (location_origin st))) as Hin.
    { unfold static_urls. apply in_map, Hp. }
    unfold serves in Hs. rewrite List.Forall_forall in Hs.
    destruct (Hs _ Hin) as (r & Hr & _).
    exists r. split; [exact Hr|].
    unfold on_fetch. rewrite (static_not_api p Hp). rewrite Hc, caches_match_single.
    destruct (put_all_lookup net _ entries
                (default ∅ (caches_get (caches st) CACHE_NAME))
                (resolve (location_origin st) p) Hall) as [Hl _].
    rewrite (Hl Hin). unfold answer. rewrite Hr. reflexivity.
Qed.

Lemma precached_assets_served_offline_witness :
  on_fetch stylesheet unreachable (run upgraded_from [Install online; Activate])
  = (Respond (served "/styles.css"), run upgraded_from [Install online; Activate]).
Proof.
  assert (List.NoDup (caches_keys (caches upgraded_from))) as Hnd
    by (repeat constructor; intros []).
  assert (serves online (static_urls (location_origin upgraded_from))) as Hs.
  { unfold serves.
    repeat (apply List.Forall_cons;
            [eexists; split; [reflexivity|split; [reflexivity|discriminate]]|]).
    apply List.Forall_nil. }
  destruct (precached_assets_served_offline online upgraded_from Hnd Hs) as [_ H].
  destruct (H "/styles.css" unreachable ltac:(cbn; tauto)) as (r & Hr & Hf).
  injection Hr as <-. exact Hf.
Defined.


(** X16. Installation is all or nothing: when the network does not serve
    every one of the five static URLs with an ok response (other than 206,
    which [addAll] refuses as well), the install
    listener writes no entry at all; the current cache keeps the content it
    had (it is created empty if it did not exist), the other caches are
    untouched, and the five requests have been made. *)
Theorem failed_install_writes_nothing (net : Url -> FetchOutcome) (st : State) :
  ~ serves net (static_urls (location_origin st)) ->
  caches (on_install net st) = caches_open (caches st) CACHE_NAME
  /\ caches_get (caches (on_install net st)) CACHE_NAME
     = Some (default ∅ (caches_get (caches st) CACHE_NAME))
  /\ fetched (on_install net st)
     = fetched st ++ map get_request (static_urls (location_origin st)).
Proof.
  intros Hns.
  assert (fetch_all net (static_urls (location_origin st)) = None) as Hall.
  { destruct (fetch_all net (static_urls (location_origin st))) as [entries|] eqn:E;
      [|reflexivity].
    exfalso. apply Hns. clear Hns. revert entries E.
    generalize (static_urls (location_origin st)).
    induction l as [|u urls IH]; intros entries E; [constructor|].
    cbn [fetch_all] in E. destruct (net u) as [r|e] eqn:Hn; [|discriminate].
    destruct (cacheable r) eqn:Hok; [|discriminate].
    destruct (fetch_all net urls) as [es|]; [|discriminate].
    constructor; [exists r; split; [exact Hn|apply cacheable_inv, Hok]|].
    apply (IH es). reflexivity. }
  assert (caches (on_install net st) = caches_open (caches st) CACHE_NAME
          /\ fetched (on_install net st)
             = fetched st ++ map get_request (static_urls (location_origin st))) as [Hc Hf].
  { unfold on_install, addAll. rewrite caches_get_open.
    change (map (resolve (location_origin st)) urlsToCache)
      with (static_urls (location_origin st)).
    rewrite Hall. split; reflexivity. }
  repeat apply conj; [exact Hc| |exact Hf].
  rewrite Hc. apply caches_get_open.
Qed.

Lemma failed_install_writes_nothing_witness :
  caches (on_install manifest_missing (fresh site)) = [(CACHE_NAME, ∅)]
  /\ length (fetched (on_install manifest_missing (fresh site))) = 5.
Proof.
  assert (~ serves manifest_missing (static_urls (location_origin (fresh site)))) as Hns.
  { apply fetch_all_None. vm_compute. reflexivity. }
  destruct (failed_install_writes_nothing manifest_missing (fresh site) Hns) as (Hc & _ & Hf).
  split; [rewrite Hc | rewrite Hf]; reflexivity.
Defined.


(** ** Assets that were not precached *)

(** X17. What was not precached is not available offline: in every state
    the worker reaches from an origin without caches, a static-asset request
    whose URL is not one of the five of [urlsToCache] (another path, or one
    of them with a query string) goes to the network once, and when the
    network fails the page gets a network error. *)
Theorem uncached_asset_fails_offline (o : string) (evs : list Event)
    (request : Request) (e : Error) :
  isApi request = false ->
  ~ In (url request) (static_urls o) ->
  let st := run (fresh o) evs in
  on_fetch request (FetchRejected e) st
  = (NetworkError, with_fetched (fetched st ++ [request]) st).
Proof.
  intros Ha Hn st. unfold on_fetch. rewrite Ha.
  rewrite (caches_match_static o).
  - reflexivity.
  - apply (run_static evs (fresh o)). constructor.
  - exact Hn.
Qed.

Lemma uncached_asset_fails_offline_witness :
  fst (on_fetch index_with_query unreachable installed) = NetworkError
  /\ fst (on_fetch icon unreachable installed) = NetworkError.
Proof.
  assert (forall request, In (url request) (static_urls site) ->
            pathname (url request) <> "/icon-192.png" /\ search (url request) = "") as Hs.
  { intros request H. cbn in H.
    repeat (destruct H as [H|H]; [rewrite <- H; split; [discriminate|reflexivity]|]).
    destruct H. }
  pose proof (uncached_asset_fails_offline site [Install online; Activate] index_with_query
                (TypeError "Failed to fetch") eq_refl) as H1.
  pose proof (uncached_asset_fails_offline site [Install online; Activate] icon
                (TypeError "Failed to fetch") eq_refl) as H2.
  cbv zeta in H1, H2. unfold unreachable, installed. split.
  - rewrite H1; [reflexivity|]. intros H. apply Hs in H as [_ H]. discriminate H.
  - rewrite H2; [reflexivity|]. intros H. apply Hs in H as [H _]. apply H. reflexivity.
Defined.


(** ** Before activation *)

Lemma caches_set_head (name n : string) (c0 c : gmap Url Response) (rest : CacheStorage) :
  String.eqb name n = false ->
  caches_set ((name, c0) :: rest) n c = (name, c0) :: caches_set rest n c.
Proof. intros E. cbn [caches_set]. rewrite E. reflexivity. Qed.

Lemma on_install_head (net : Url -> FetchOutcome) (st : State) (name : string)
    (c : gmap Url Response) (rest : CacheStorage) :
  caches st = (name, c) :: rest -> String.eqb name CACHE_NAME = false ->
  exists rest', caches (on_install net st) = (name, c) :: rest'.
Proof.
  intros Hc E. unfold on_install.
  assert (exists rest0, caches_open (caches st) CACHE_NAME = (name, c) :: rest0) as [rest0 Ho].
  { unfold caches_open. destruct (caches_get (caches st) CACHE_NAME).
    - eexists. exact Hc.
    - rewrite Hc. eexists. reflexivity. }
  rewrite Ho.
  destruct (caches_get ((name, c) :: rest0) CACHE_NAME) as [cache|];
    [|eexists; reflexivity].
  destruct (addAll net _ cache) as [cache'|]; [|eexists; reflexivity].
  cbn [caches with_caches with_fetched]. rewrite (caches_set_head _ _ _ _ _ E).
  eexists. reflexivity.
Qed.

(** X18. Until activation an older cache keeps answering: [caches.match]
    goes through the caches in the order they were created, so after an
    install, successful or not, a static-asset request that the oldest
    cache matches is still answered from it, not from the cache just
    filled, and without any network fetch. *)
Theorem old_generation_served_until_activate (net : Url -> FetchOutcome) (st : State)
    (name : string) (c : gmap Url Response) (rest : CacheStorage)
    (request : Request) (old : Response) (net' : FetchOutcome) :
  caches st = (name, c) :: rest ->
  String.eqb name CACHE_NAME = false ->
  cache_match c request = Some old ->
  isApi request = false ->
  on_fetch request net' (on_install net st) = (Respond old, on_install net st).
Proof.
  intros Hc E Hm Ha.
  destruct (on_install_head net st name c rest Hc E) as [rest' Hi].
  unfold on_fetch. rewrite Ha, Hi. cbn [caches_match]. rewrite Hm. reflexivity.
Qed.

Lemma old_generation_served_until_activate_witness :
  fst (on_fetch stylesheet unreachable (run upgraded_from [Install online]))
  = Respond (served "old stylesheet")
  /\ fst (on_fetch stylesheet unreachable (run upgraded_from [Install online; Activate]))
     = Respond (served "/styles.css").
Proof.
  split.
  - cbn [run fold_left step].
    rewrite (old_generation_served_until_activate online upgraded_from
               "vizio-tv-controller-v0"
               {[ resolve site "/styles.css" := served "old stylesheet" ]} []
               stylesheet (served "old stylesheet") unreachable
               eq_refl eq_refl ltac:(vm_compute; reflexivity) eq_refl).
    reflexivity.
  - vm_compute. reflexivity.
Defined.

End Generations.
